(** * memorypilot: the MCP protocol adapter (internal/mcp/server.go)

    A shallow embedding of the stdio JSON-RPC server of memorypilot and the
    properties its specification states about it.

    Conventions.
    - A Go [string] is a sequence of bytes: Rocq's [string], whose [length]
      is Go's [len].
    - A Go [int] is a 64-bit integer, written as a [Z].
    - A Go [float64] is a primitive binary64 float.
    - Effects are explicit: every handler takes the server record (store,
      outside world, lines written so far) and returns the new one.
    - The packages internal/store, internal/embedding and pkg/models are
      not part of the sources at hand.  The adapter is therefore written
      against an interface ([StoreAPI], [Runtime]) whose operations have
      the signatures the calls in server.go show. *)

From Stdlib Require Import ZArith List String Ascii Bool Lia.
From Stdlib Require Import DecimalString DecimalPos DecimalN DecimalZ.
From Stdlib Require Import Floats.PrimFloat.
Import ListNotations.

Set Warnings "-register-all".

Open Scope string_scope.
Open Scope Z_scope.

(* ================================================================== *)
(** ** Go values and formatting helpers *)

Module Go.

Definition float64 := float.

(** time.Time, as an instant on some clock. *)
Definition Time := Z.

Definition MinInt64 : Z := - 2 ^ 63.
Definition MaxInt64 : Z := 2 ^ 63 - 1.

(** len(s), as a Go int. *)
Definition len (s : string) : Z := Z.of_nat (String.length s).

Definition nl : string := String (ascii_of_nat 10) EmptyString.

(** strconv.Itoa, which is also what the verb %d prints. *)
Definition Itoa (z : Z) : string := NilEmpty.string_of_int (Z.to_int z).

(** strings.Join. *)
Fixpoint Join (elems : list string) (sep : string) : string :=
  match elems with
  | [] => ""
  | [e] => e
  | e :: rest => e ++ sep ++ Join rest sep
  end.

(** The verb %v applied to a []string: the elements separated by one
    space, in square brackets. *)
Definition SprintStrings (l : list string) : string :=
  "[" ++ Join l " " ++ "]".

(** s[:n] for a string.  [None] is the run-time panic (slice bounds out
    of range) that Go raises when n is negative or exceeds len(s). *)
Definition slice_to (s : string) (n : Z) : option string :=
  if (n <? 0) || (len s <? n) then None
  else Some (substring 0 (Z.to_nat n) s).

(** The second component of a Go (value, error) pair decides which of
    the two the caller looks at. *)
Inductive result (E A : Type) : Type :=
| Ok (a : A)
| Err (e : E).
Arguments Ok {E A} a.
Arguments Err {E A} e.

(** The error interface: one method. *)
Class error (E : Type) := Error : E -> string.

End Go.
Import Go.

(* ================================================================== *)
(** ** encoding/json, as far as the adapter uses it *)

Module JSON.

(** A JSON text that passed the decoder's syntax check, as a tree.  A
    number keeps its literal: the target type decides how it is read.
    The members of an object keep their order and their duplicates. *)
Inductive json : Type :=
| JNull
| JBool (b : bool)
| JNumber (lit : string)
| JString (s : string)
| JArray (items : list json)
| JObject (members : list (string * json)).

(** A string of the tree is the content of the literal as the decoder
    reads it: escapes resolved, and invalid UTF-8 already replaced. *)

(** The dynamic value of an interface{}, written as a tree: [JNull] is
    the nil interface, a string is a Go string, an array a slice, an
    object a map (its entries, which [goValue] lists without duplicates
    and sorted by key), and a number stands for the literal the encoder
    writes for it: a float64 when it was decoded ([goValue]), an int when
    the adapter built it. *)
Definition any := json.

(** strconv, for the numbers of an interface{}: the decoder reads a
    number literal into a float64 (strconv.ParseFloat, 64 bits), and the
    encoder writes a float64 back as a literal.  [float64Literal lit] is
    the literal written for the float64 that [lit] is read into, and
    [None] when [lit] is out of the range of float64, which the decoder
    reports as an error.  The conversion itself is a parameter. *)
Class Strconv : Type := float64Literal : string -> option string.

(** *** UTF-8, as package unicode/utf8 decodes it *)

Definition byte (c : ascii) : nat := nat_of_ascii c.

Definition between (lo hi : nat) (c : ascii) : bool :=
  (Nat.leb lo (byte c) && Nat.leb (byte c) hi)%bool.

Definition continuation (c : ascii) : bool := between 128 191 c.

(** The first byte of an encoding of two bytes, and the first two bytes
    of an encoding of three and of four bytes. *)
Definition lead2 (c0 : ascii) : bool := between 194 223 c0.

Definition lead3 (c0 c1 : ascii) : bool :=
  ((Nat.eqb (byte c0) 224 && between 160 191 c1)
   || ((between 225 236 c0 || between 238 239 c0) && continuation c1)
   || (Nat.eqb (byte c0) 237 && between 128 159 c1))%bool.

Definition lead4 (c0 c1 : ascii) : bool :=
  ((Nat.eqb (byte c0) 240 && between 144 191 c1)
   || (between 241 243 c0 && continuation c1)
   || (Nat.eqb (byte c0) 244 && between 128 143 c1))%bool.

(** U+FFFD, encoded. *)
Definition replacement : string :=
  String (ascii_of_nat 239)
    (String (ascii_of_nat 191) (String (ascii_of_nat 189) EmptyString)).

(** What the encoder writes for a Go string, as content: every byte that
    does not start a valid encoding is replaced by U+FFFD. *)
Fixpoint coerce (s : string) : string :=
  match s with
  | EmptyString => EmptyString
  | String c0 r0 =>
      if Nat.ltb (byte c0) 128 then String c0 (coerce r0)
      else
        match r0 with
        | String c1 r1 =>
            if (lead2 c0 && continuation c1)%bool
            then String c0 (String c1 (coerce r1))
            else
              match r1 with
              | String c2 r2 =>
                  if (lead3 c0 c1 && continuation c2)%bool
                  then String c0 (String c1 (String c2 (coerce r2)))
                  else
                    match r2 with
                    | String c3 r3 =>
                        if (lead4 c0 c1 && continuation c2 && continuation c3)%bool
                        then String c0
                               (String c1 (String c2 (String c3 (coerce r3))))
                        else replacement ++ coerce r0
                    | EmptyString => replacement ++ coerce r0
                    end
              | EmptyString => replacement ++ coerce r0
              end
        | EmptyString => replacement ++ coerce r0
        end
  end.

(** *** Maps with string keys, as the encoder lists them: sorted by key *)

Fixpoint insertMember (k : string) (v : json) (ms : list (string * json))
    : list (string * json) :=
  match ms with
  | [] => [(k, v)]
  | (k', v') :: rest =>
      match String.compare k k' with
      | Lt => (k, v) :: ms
      | Eq => (k, v) :: rest
      | Gt => (k', v') :: insertMember k v rest
      end
  end.

(** A map as the encoder lists it, built entry by entry. *)
Definition sortMembers (ms : list (string * json)) : list (string * json) :=
  fold_left (fun acc kv => insertMember (fst kv) (snd kv) acc) ms [].

(** json.Marshal of the value of an interface{}: the entries of a map are
    sorted by their keys as they are, and each key is then written as a
    string is. *)
Fixpoint encode (v : any) : json :=
  match v with
  | JString s => JString (coerce s)
  | JArray items => JArray (map encode items)
  | JObject members =>
      JObject
        (map (fun kv => (coerce (fst kv), snd kv))
           (sortMembers
              (map (fun kv => match kv with (k, x) => (k, encode x) end) members)))
  | _ => v
  end.

(** json.RawMessage: the bytes of one value, or no bytes at all. *)
Definition RawMessage := option json.

(** *** Reading a number literal into an int (strconv.ParseInt, base 10,
    64 bits) *)

Definition digit (c : ascii) : option Z :=
  let n := Z.of_nat (nat_of_ascii c) in
  if (48 <=? n) && (n <=? 57) then Some (n - 48) else None.

Fixpoint digits (s : string) (acc : Z) : option Z :=
  match s with
  | EmptyString => Some acc
  | String c rest =>
      match digit c with
      | Some d => digits rest (10 * acc + d)
      | None => None
      end
  end.

Definition unsigned (s : string) : option Z :=
  match s with
  | EmptyString => None
  | _ => digits s 0
  end.

Definition ParseInt (s : string) : option Z :=
  let v :=
    match s with
    | String "-" rest => option_map Z.opp (unsigned rest)
    | String "+" rest => unsigned rest
    | _ => unsigned s
    end in
  match v with
  | Some z => if (MinInt64 <=? z) && (z <=? MaxInt64) then Some z else None
  | None => None
  end.

(** *** Decoding a value into a typed target

    Each function takes the JSON value and the target's current content
    and returns the new content with a flag: [true] when the value
    suited the target, [false] when the decoder recorded an
    UnmarshalTypeError and left the target alone.  A JSON null leaves a
    string, number or boolean target unchanged and is no error. *)

Definition intoString (v : json) (cur : string) : string * bool :=
  match v with
  | JString s => (s, true)
  | JNull => (cur, true)
  | _ => (cur, false)
  end.

Definition intoInt (v : json) (cur : Z) : Z * bool :=
  match v with
  | JNumber lit =>
      match ParseInt lit with
      | Some z => (z, true)
      | None => (cur, false)
      end
  | JNull => (cur, true)
  | _ => (cur, false)
  end.

Definition intoBool (v : json) (cur : bool) : bool * bool :=
  match v with
  | JBool b => (b, true)
  | JNull => (cur, true)
  | _ => (cur, false)
  end.

(** The items of an array decoded over a backing array, one by one: the
    item of index i is decoded into the string of index i, an empty
    string where the backing array ends. *)
Fixpoint decodeOver (items : list json) (backing : list string)
    : list (string * bool) :=
  match items with
  | [] => []
  | x :: rest =>
      match backing with
      | [] => intoString x "" :: decodeOver rest []
      | b :: bs => intoString x b :: decodeOver rest bs
      end
  end.

(** A []string target.  [cur] is the slice and [spare] the strings that
    lie in its backing array beyond its length.  An array is decoded
    over the backing array and sets the length to its number of items;
    an empty array gives a new empty slice; null sets the slice to nil;
    any other value is an error and changes nothing. *)
Definition intoStrings (v : json) (cur spare : list string)
    : (list string * list string) * bool :=
  match v with
  | JArray [] => (([], []), true)
  | JArray items =>
      let decoded := decodeOver items (cur ++ spare)%list in
      ((map fst decoded, skipn (List.length items) (cur ++ spare)%list),
       forallb snd decoded)
  | JNull => (([], []), true)
  | _ => ((cur, spare), false)
  end.

(** A value decoded for an interface{} that lies inside an array or a
    map (valueInterface): a number is read into a float64, and one out of
    the range of float64 is an error that leaves nil in its place; in a
    map the last of the members of one name is kept. *)
Fixpoint valueInterface {sc : Strconv} (v : json) : any * bool :=
  match v with
  | JNumber lit =>
      match float64Literal lit with
      | Some l => (JNumber l, true)
      | None => (JNull, false)
      end
  | JArray items =>
      (JArray (map (fun x => fst (valueInterface x)) items),
       forallb (fun x => snd (valueInterface x)) items)
  | JObject members =>
      (JObject
         (sortMembers
            (map (fun kv => match kv with (k, x) => (k, fst (valueInterface x)) end)
                 members)),
       forallb (fun kv => match kv with (k, x) => snd (valueInterface x) end)
               members)
  | _ => (v, true)
  end.

(** An interface{} target.  A number out of the range of float64 is an
    error that leaves the target alone; null sets it to nil; an array or
    a map is stored as [valueInterface] built it, errors included. *)
Definition intoAny {sc : Strconv} (v : json) (cur : any) : any * bool :=
  match v with
  | JNumber lit =>
      match float64Literal lit with
      | Some l => (JNumber l, true)
      | None => (cur, false)
      end
  | _ => valueInterface v
  end.

(** The value an interface{} takes when a JSON value is decoded into it
    without an error. *)
Definition goValue {sc : Strconv} (v : json) : option any :=
  let '(a, ok) := intoAny v JNull in
  if ok then Some a else None.

(** A RawMessage target keeps the bytes of the value, null included. *)
Definition intoRaw (v : json) (cur : RawMessage) : RawMessage * bool :=
  (Some v, true).

(** *** Matching a member name to a struct field: the exact name first,
    then the name up to case folding.

    The decoder compares names under Unicode simple case folding.  The
    names of the fields here are made of ASCII letters, and the only
    characters outside ASCII that fold to an ASCII letter are U+017F
    (long s, bytes C5 BF) and U+212A (Kelvin sign, bytes E2 84 AA); every
    other character outside ASCII is left as it is, which cannot make a
    name equal to the name of a field. *)

Definition lower (c : ascii) : ascii :=
  let n := nat_of_ascii c in
  if (Nat.leb 65 n && Nat.leb n 90)%bool then ascii_of_nat (n + 32) else c.

Fixpoint foldName (s : string) : string :=
  match s with
  | EmptyString => EmptyString
  | String c0 r0 =>
      match r0 with
      | String c1 r1 =>
          if (Nat.eqb (byte c0) 197 && Nat.eqb (byte c1) 191)%bool
          then String "s" (foldName r1)
          else
            match r1 with
            | String c2 r2 =>
                if (Nat.eqb (byte c0) 226 && Nat.eqb (byte c1) 132
                    && Nat.eqb (byte c2) 170)%bool
                then String "k" (foldName r2)
                else String (lower c0) (foldName r0)
            | EmptyString => String (lower c0) (foldName r0)
            end
      | EmptyString => String (lower c0) EmptyString
      end
  end.

Definition fieldFor (names : list string) (key : string) : option string :=
  match find (String.eqb key) names with
  | Some n => Some n
  | None => find (fun n => String.eqb (foldName n) (foldName key)) names
  end.

(** *** Decoding an object into a struct

    [set field value p] stores one member.  Members are handled in
    order; a member that does not suit its field is skipped, the
    decoding goes on, and the error is reported at the end. *)

Fixpoint object {T : Type} (names : list string)
    (set : string -> json -> T -> T * bool)
    (members : list (string * json)) (p : T) : T * bool :=
  match members with
  | [] => (p, true)
  | (key, v) :: rest =>
      let '(p1, ok1) :=
        match fieldFor names key with
        | Some f => set f v p
        | None => (p, true)
        end in
      let '(p2, ok2) := object names set rest p1 in
      (p2, ok1 && ok2)
  end.

(** json.Unmarshal(data, &p) for a struct p.  The flag is [err == nil].
    No bytes at all is a syntax error (unexpected end of JSON input);
    null is accepted and changes nothing; a value that is not an object
    is an UnmarshalTypeError. *)
Definition Unmarshal {T : Type} (names : list string)
    (set : string -> json -> T -> T * bool)
    (data : RawMessage) (p : T) : T * bool :=
  match data with
  | None => (p, false)
  | Some JNull => (p, true)
  | Some (JObject members) => object names set members p
  | Some _ => (p, false)
  end.

(** The member of an object, as a decoder reads it into an interface{}
    field: the last one of that name wins, no member leaves nil. *)
Fixpoint member (name : string) (members : list (string * json)) : option json :=
  match members with
  | [] => None
  | (k, v) :: rest =>
      match member name rest with
      | Some v' => Some v'
      | None => if String.eqb k name then Some v else None
      end
  end.

End JSON.
Import JSON.


(* ================================================================== *)
(** ** pkg/models, as the adapter uses it

    The package is not among the sources at hand.  The fields of [Memory]
    are the ones the composite literal in handleRemember sets, with the
    types that literal and the formatting code force on them. *)

Module models.

(** MemoryType, MemoryScope and SourceType are string types:
    handleRemember converts a plain string into a MemoryType. *)
Definition MemoryType := string.
Definition MemoryScope := string.
Definition SourceType := string.

(** Modelled from the spec: the constants MemoryScopePersonal and
    SourceTypeManual of pkg/models, whose values the sources at hand do
    not show; section 3 names the scope personal and the source type
    manual. *)
Definition MemoryScopePersonal : MemoryScope := "personal".
Definition SourceTypeManual : SourceType := "manual".

(** []float32; the adapter only hands a vector on.  A nil vector is told
    apart from an empty one by [EmbedResult] below. *)
Definition Embedding := list float.

Module Source.
Record t : Type := mk {
  Type_ : SourceType;
  Reference : string;
  Timestamp : Time
}.
End Source.

Module Memory.
Record t : Type := mk {
  ID : string;
  Type_ : MemoryType;
  Content : string;
  Summary : string;
  Scope : MemoryScope;
  Source : Source.t;
  Confidence : float64;
  Importance : float64;
  Topics : list string;
  CreatedAt : Time;
  LastAccessedAt : Time;
  AccessCount : Z
}.
End Memory.

(** Only Query and Limit are set by the adapter; any other field of the
    request keeps its zero value. *)
Module RecallRequest.
Record t : Type := mk {
  Query : string;
  Limit : Z
}.
End RecallRequest.

(** ByType is a Go map; the list gives its entries in the order in which
    the range statement of handleStatus visits them. *)
Module Stats.
Record t : Type := mk {
  TotalMemories : Z;
  ProjectCount : Z;
  ByType : list (MemoryType * Z)
}.
End Stats.

End models.
Import models.

(* ================================================================== *)
(** ** The collaborators of the adapter *)

(** internal/store.Store: the five methods server.go calls.  [S] is the
    state of the database, [E] the type of the errors it returns.
    CreateMemory takes a pointer: it returns the memory as the callee left
    it. *)
Class StoreAPI (S E : Type) : Type := {
  HybridSearch : string -> Embedding -> Z -> S -> result E (list Memory.t) * S;
  Recall : RecallRequest.t -> S -> result E (list Memory.t) * S;
  CreateMemory : Memory.t -> S -> option E * Memory.t * S;
  UpdateMemoryEmbedding : string -> Embedding -> S -> option E * S;
  GetStats : S -> result E Stats.t * S
}.

(** The outcome of Embed, a ([]float32, error) pair: an error (whatever
    the vector), no error and a nil vector, no error and a vector. *)
Inductive EmbedResult : Type :=
| EmbedError
| EmbedNil
| EmbedVector (v : Embedding).

(** What the adapter asks of the world outside the store.  [X] is the
    state of that world.
    - Embed: embedding.NewOllamaEmbedder(<empty>, nomic-embed-text).Embed;
    - Now: time.Now;
    - MakeULID: ulid.Make().String();
    - Quote: the verb %q on a string (strconv.Quote), a pure function. *)
Class Runtime (X : Type) : Type := {
  Embed : string -> X -> EmbedResult * X;
  Now : X -> Time * X;
  MakeULID : X -> string * X;
  Quote : string -> string
}.

(* ================================================================== *)
(** ** internal/mcp/server.go *)

Module JSONRPCRequest.
Record t : Type := mk {
  JSONRPC : string;
  ID : any;
  Method : string;
  Params : RawMessage
}.
Definition zero : t := mk "" JNull "" None.
Definition names : list string := ["jsonrpc"; "id"; "method"; "params"].
Definition set {sc : Strconv} (field : string) (v : json) (r : t) : t * bool :=
  if String.eqb field "jsonrpc" then
    let '(x, ok) := intoString v (JSONRPC r) in (mk x (ID r) (Method r) (Params r), ok)
  else if String.eqb field "id" then
    let '(x, ok) := intoAny v (ID r) in (mk (JSONRPC r) x (Method r) (Params r), ok)
  else if String.eqb field "method" then
    let '(x, ok) := intoString v (Method r) in (mk (JSONRPC r) (ID r) x (Params r), ok)
  else if String.eqb field "params" then
    let '(x, ok) := intoRaw v (Params r) in (mk (JSONRPC r) (ID r) (Method r) x, ok)
  else (r, true).
End JSONRPCRequest.

Module RPCError.
Record t : Type := mk {
  Code : Z;
  Message : string
}.
End RPCError.

Module JSONRPCResponse.
Record t : Type := mk {
  JSONRPC : string;
  ID : any;
  Result : any;
  Error : option RPCError.t
}.
End JSONRPCResponse.

(** json.Marshal of a JSONRPCResponse: the fields in the order of the
    struct; id, result and error are tagged omitempty, so a nil id, a nil
    result and a nil error are left out; the values of id and result are
    encoded as [encode] says, and the strings as [coerce] says. *)
Definition Marshal (resp : JSONRPCResponse.t) : json :=
  JObject
    ([("jsonrpc", JString (coerce (JSONRPCResponse.JSONRPC resp)))]
     ++ match JSONRPCResponse.ID resp with
        | JNull => []
        | id => [("id", encode id)]
        end
     ++ match JSONRPCResponse.Result resp with
        | JNull => []
        | result => [("result", encode result)]
        end
     ++ match JSONRPCResponse.Error resp with
        | None => []
        | Some e =>
            [("error",
              JObject [("code", JNumber (Itoa (RPCError.Code e)));
                       ("message", JString (coerce (RPCError.Message e)))])]
        end).

(** The identifier a reader of the line finds in it: the value of the id
    member, and nil when the line has no such member. *)
Definition lineID (line : json) : any :=
  match line with
  | JObject members =>
      match member "id" members with
      | Some v => v
      | None => JNull
      end
  | _ => JNull
  end.

(** The anonymous struct of handleToolsCall. *)
Module CallParams.
Record t : Type := mk {
  Name : string;
  Arguments : RawMessage
}.
Definition zero : t := mk "" None.
Definition names : list string := ["name"; "arguments"].
Definition set (field : string) (v : json) (p : t) : t * bool :=
  if String.eqb field "name" then
    let '(x, ok) := intoString v (Name p) in (mk x (Arguments p), ok)
  else if String.eqb field "arguments" then
    let '(x, ok) := intoRaw v (Arguments p) in (mk (Name p) x, ok)
  else (p, true).
End CallParams.

(** The anonymous struct of handleRecall. *)
Module RecallParams.
Record t : Type := mk {
  Query : string;
  Limit : Z;
  Semantic : bool
}.
Definition zero : t := mk "" 0 false.
Definition names : list string := ["query"; "limit"; "semantic"].
Definition set (field : string) (v : json) (p : t) : t * bool :=
  if String.eqb field "query" then
    let '(x, ok) := intoString v (Query p) in (mk x (Limit p) (Semantic p), ok)
  else if String.eqb field "limit" then
    let '(x, ok) := intoInt v (Limit p) in (mk (Query p) x (Semantic p), ok)
  else if String.eqb field "semantic" then
    let '(x, ok) := intoBool v (Semantic p) in (mk (Query p) (Limit p) x, ok)
  else (p, true).
End RecallParams.

(** The anonymous struct of handleRemember. *)
Module RememberParams.
Record t : Type := mk {
  Content : string;
  Type_ : string;
  Topics : list string
}.
Definition zero : t := mk "" "" [].
Definition names : list string := ["content"; "type"; "topics"].
(** The struct while it is decoded: its fields, and the strings that lie
    in the backing array of Topics beyond its length, which a later
    array of the same name is decoded over. *)
Record decoding : Type := mkDecoding {
  value : t;
  spare : list string
}.
Definition start : decoding := mkDecoding zero [].
Definition set (field : string) (v : json) (d : decoding) : decoding * bool :=
  let p := value d in
  if String.eqb field "content" then
    let '(x, ok) := intoString v (Content p) in
    (mkDecoding (mk x (Type_ p) (Topics p)) (spare d), ok)
  else if String.eqb field "type" then
    let '(x, ok) := intoString v (Type_ p) in
    (mkDecoding (mk (Content p) x (Topics p)) (spare d), ok)
  else if String.eqb field "topics" then
    let '(x, ok) := intoStrings v (Topics p) (spare d) in
    (mkDecoding (mk (Content p) (Type_ p) (fst x)) (snd x), ok)
  else (d, true).
End RememberParams.

(** One call of reader.ReadString on standard input that did not meet the
    end of the stream: a line, or a read error.  A line is either a text
    the decoder rejects for its syntax, or a JSON value. *)
Inductive Line : Type :=
| BadSyntax (text : string)
| Text (v : json).

Inductive Read : Type :=
| ReadLine (line : Line)
| ReadError (msg : string).

(** json.Unmarshal([]byte(line), &req). *)
Definition decodeRequest {sc : Strconv} (line : Line) : JSONRPCRequest.t * bool :=
  match line with
  | BadSyntax _ => (JSONRPCRequest.zero, false)
  | Text v =>
      Unmarshal JSONRPCRequest.names JSONRPCRequest.set (Some v) JSONRPCRequest.zero
  end.

Definition truncateStr (s : string) (maxLen : Z) : option string :=
  if len s <=? maxLen then Some s
  else option_map (fun head => head ++ "...") (slice_to s (maxLen - 3)).

(** The payload every tool sends back: one text item.  A Go map is
    encoded with its keys sorted, and the members are written in that
    order. *)
Definition textContent (text : string) : any :=
  JObject [("content",
            JArray [JObject [("text", JString text); ("type", JString "text")]])].

(** The payload of sendServerInfo and of handleInitialize. *)
Definition serverInfo : any :=
  JObject [("capabilities", JObject [("tools", JObject [])]);
           ("protocolVersion", JString "2024-11-05");
           ("serverInfo",
            JObject [("name", JString "memorypilot"); ("version", JString "0.1.0")])].

Definition strings (l : list string) : json := JArray (map JString l).

Definition property (type description : string) : json :=
  JObject [("description", JString description); ("type", JString type)].

(** The payload of handleToolsList. *)
Definition toolsList : any :=
  JObject [("tools", JArray [
    JObject [
      ("description", JString "Search your memory for relevant context");
      ("inputSchema", JObject [
         ("properties", JObject [
            ("limit", JObject [("default", JNumber "5");
                               ("description", JString "Maximum results");
                               ("type", JString "number")]);
            ("query", property "string" "What to search for")]);
         ("required", strings ["query"]);
         ("type", JString "object")]);
      ("name", JString "memorypilot_recall")];
    JObject [
      ("description", JString "Explicitly remember something important");
      ("inputSchema", JObject [
         ("properties", JObject [
            ("content", property "string" "What to remember");
            ("topics", JObject [("description", JString "Topics/tags for this memory");
                                ("items", JObject [("type", JString "string")]);
                                ("type", JString "array")]);
            ("type", JObject [("default", JString "fact");
                              ("description", JString "Memory type");
                              ("enum", strings ["decision"; "pattern"; "fact";
                                                "preference"; "mistake"; "learning"]);
                              ("type", JString "string")])]);
         ("required", strings ["content"]);
         ("type", JString "object")]);
      ("name", JString "memorypilot_remember")];
    JObject [
      ("description", JString "Get memory statistics");
      ("inputSchema", JObject [("properties", JObject []);
                               ("type", JString "object")]);
      ("name", JString "memorypilot_status")]])].

(** The text handleRecall builds from the memories found. *)
Definition topicsStr (m : Memory.t) : string :=
  if 0 <? Z.of_nat (List.length (Memory.Topics m))
  then nl ++ "   Topics: " ++ SprintStrings (Memory.Topics m)
  else "".

Fixpoint recallItems (i : Z) (memories : list Memory.t) : string :=
  match memories with
  | [] => ""
  | m :: rest =>
      Itoa (i + 1) ++ ". [" ++ Memory.Type_ m ++ "] " ++ Memory.Summary m
        ++ nl ++ "   " ++ Memory.Content m ++ topicsStr m ++ nl ++ nl
        ++ recallItems (i + 1) rest
  end.

Definition defaultSummaryLen : Z := 100.

(** Summary: truncateStr(params.Content, 100).  At this bound truncateStr
    cannot panic ([truncateStr_100] below), so the second branch is never
    taken. *)
Definition summaryOf (content : string) : string :=
  match truncateStr content defaultSummaryLen with
  | Some s => s
  | None => content
  end.

Section Server.

Context {St E X : Type} {E_error : error E} {db : StoreAPI St E} {rt : Runtime X}
        {sc : Strconv}.

(** The Server struct.  [store] is the state behind the *store.Store,
    [world] the state of the embedding service, the clock and the
    identifier source, [writer] the lines written to standard output so
    far, oldest first, each one the encoding of one response.  The reader
    is the argument of [Run]. *)
Record Server : Type := mkServer {
  store : St;
  world : X;
  writer : list json
}.

Definition onStore {A : Type} (f : St -> A * St) (s : Server) : A * Server :=
  let '(a, st) := f (store s) in (a, mkServer st (world s) (writer s)).

Definition onWorld {A : Type} (f : X -> A * X) (s : Server) : A * Server :=
  let '(a, w) := f (world s) in (a, mkServer (store s) w (writer s)).

Definition send (resp : JSONRPCResponse.t) (s : Server) : Server :=
  mkServer (store s) (world s) (writer s ++ [Marshal resp]).

Definition sendResult (id : any) (result : any) (s : Server) : Server :=
  send (JSONRPCResponse.mk "2.0" id result None) s.

Definition sendError (id : any) (code : Z) (message : string) (s : Server) : Server :=
  send (JSONRPCResponse.mk "2.0" id JNull (Some (RPCError.mk code message))) s.

Definition sendServerInfo (s : Server) : Server :=
  sendResult JNull serverInfo s.

Definition handleInitialize (req : JSONRPCRequest.t) (s : Server) : Server :=
  sendResult (JSONRPCRequest.ID req) serverInfo s.

Definition handleToolsList (req : JSONRPCRequest.t) (s : Server) : Server :=
  sendResult (JSONRPCRequest.ID req) toolsList s.

(** *** handleRecall, in the three steps of its body *)

(** Lines 211-220: the arguments are decoded, the error of the decoder is
    dropped, and a zero limit becomes 5. *)
Definition recallParams (args : RawMessage) : RecallParams.t :=
  let params := fst (Unmarshal RecallParams.names RecallParams.set args RecallParams.zero) in
  if RecallParams.Limit params =? 0
  then RecallParams.mk (RecallParams.Query params) 5 (RecallParams.Semantic params)
  else params.

(** Lines 222-235: the embedding of the query is asked for; with a vector
    the hybrid search runs, without one the keyword recall. *)
Definition recallSearch (params : RecallParams.t) (s : Server)
    : result E (list Memory.t) * Server :=
  let '(emb, s1) := onWorld (Embed (RecallParams.Query params)) s in
  match emb with
  | EmbedVector queryEmb =>
      onStore (HybridSearch (RecallParams.Query params) queryEmb
                            (RecallParams.Limit params)) s1
  | _ =>
      onStore (Recall (RecallRequest.mk (RecallParams.Query params)
                                        (RecallParams.Limit params))) s1
  end.

Definition recallText (query : string) (memories : list Memory.t) : string :=
  if Z.of_nat (List.length memories) =? 0
  then "No memories found for: " ++ Quote query
  else "Found " ++ Itoa (Z.of_nat (List.length memories)) ++ " memories:" ++ nl ++ nl
       ++ recallItems 0 memories.

(** Lines 237-262: an error of the search is reported with code -32000,
    a list is formatted as text. *)
Definition recallReply (req : JSONRPCRequest.t) (params : RecallParams.t)
    (found : result E (list Memory.t)) (s : Server) : Server :=
  match found with
  | Err err => sendError (JSONRPCRequest.ID req) (-32000) (Error err) s
  | Ok memories =>
      sendResult (JSONRPCRequest.ID req)
                 (textContent (recallText (RecallParams.Query params) memories)) s
  end.

Definition handleRecall (req : JSONRPCRequest.t) (args : RawMessage) (s : Server)
    : Server :=
  let params := recallParams args in
  let '(found, s1) := recallSearch params s in
  recallReply req params found s1.

(** *** handleRemember *)

(** Lines 266-275: the arguments are decoded, the error of the decoder is
    dropped, and an empty type becomes fact. *)
Definition rememberParams (args : RawMessage) : RememberParams.t :=
  let params :=
    RememberParams.value
      (fst (Unmarshal RememberParams.names RememberParams.set args
                      RememberParams.start)) in
  if String.eqb (RememberParams.Type_ params) ""
  then RememberParams.mk (RememberParams.Content params) "fact"
                         (RememberParams.Topics params)
  else params.

(** Lines 278-296: the composite literal, given the clock reading and the
    identifier. *)
Definition newMemory (params : RememberParams.t) (now : Time) (id : string)
    : Memory.t :=
  {| Memory.ID := id;
     Memory.Type_ := RememberParams.Type_ params;
     Memory.Content := RememberParams.Content params;
     Memory.Summary := summaryOf (RememberParams.Content params);
     Memory.Scope := MemoryScopePersonal;
     Memory.Source := {| Source.Type_ := SourceTypeManual;
                         Source.Reference := "mcp";
                         Source.Timestamp := now |};
     Memory.Confidence := 1%float;
     Memory.Importance := 1%float;
     Memory.Topics := RememberParams.Topics params;
     Memory.CreatedAt := now;
     Memory.LastAccessedAt := now;
     Memory.AccessCount := 0 |}.

(** Lines 304-308: the embedding of the content is asked for; with a
    vector it is stored, and the error of that update is dropped. *)
Definition embedMemory (memory : Memory.t) (s : Server) : Server :=
  let '(emb, s1) := onWorld (Embed (Memory.Content memory)) s in
  match emb with
  | EmbedVector v =>
      snd (onStore (UpdateMemoryEmbedding (Memory.ID memory) v) s1)
  | _ => s1
  end.

Definition rememberText (params : RememberParams.t) (memory : Memory.t) : string :=
  "✅ Remembered: " ++ RememberParams.Content params ++ nl
    ++ "   Type: " ++ RememberParams.Type_ params ++ nl
    ++ "   ID: " ++ Memory.ID memory.

(** Lines 278-299: the clock is read, the identifier drawn, the memory
    built and handed to the store. *)
Definition rememberSave (params : RememberParams.t) (s : Server)
    : option E * Memory.t * Server :=
  let '(now, s1) := onWorld Now s in
  let '(id, s2) := onWorld MakeULID s1 in
  onStore (CreateMemory (newMemory params now id)) s2.

(** Lines 299-316: an error of the store is reported with code -32000;
    otherwise the embedding step runs and the success is reported. *)
Definition rememberReply (req : JSONRPCRequest.t) (params : RememberParams.t)
    (err : option E) (memory : Memory.t) (s : Server) : Server :=
  match err with
  | Some err =>
      sendError (JSONRPCRequest.ID req) (-32000)
                ("Failed to save memory: " ++ Error err) s
  | None =>
      sendResult (JSONRPCRequest.ID req) (textContent (rememberText params memory))
                 (embedMemory memory s)
  end.

Definition handleRemember (req : JSONRPCRequest.t) (args : RawMessage) (s : Server)
    : Server :=
  let params := rememberParams args in
  let '(err, memory, s1) := rememberSave params s in
  rememberReply req params err memory s1.

(** *** handleStatus *)

Fixpoint statusItems (byType : list (MemoryType * Z)) : string :=
  match byType with
  | [] => ""
  | (t, count) :: rest =>
      "  " ++ t ++ ": " ++ Itoa count ++ nl ++ statusItems rest
  end.

Definition statusText (stats : Stats.t) : string :=
  "MemoryPilot Status" ++ nl ++ nl
    ++ "Total memories: " ++ Itoa (Stats.TotalMemories stats) ++ nl
    ++ "Projects: " ++ Itoa (Stats.ProjectCount stats) ++ nl ++ nl
    ++ "By type:" ++ nl
    ++ statusItems (Stats.ByType stats).

Definition handleStatus (req : JSONRPCRequest.t) (s : Server) : Server :=
  let '(got, s1) := onStore GetStats s in
  match got with
  | Err err => sendError (JSONRPCRequest.ID req) (-32000) (Error err) s1
  | Ok stats => sendResult (JSONRPCRequest.ID req) (textContent (statusText stats)) s1
  end.

(** *** Dispatch *)

Definition handleToolsCall (req : JSONRPCRequest.t) (s : Server) : Server :=
  let '(params, ok) :=
    Unmarshal CallParams.names CallParams.set (JSONRPCRequest.Params req)
              CallParams.zero in
  if negb ok then sendError (JSONRPCRequest.ID req) (-32602) "Invalid params" s
  else if String.eqb (CallParams.Name params) "memorypilot_recall"
  then handleRecall req (CallParams.Arguments params) s
  else if String.eqb (CallParams.Name params) "memorypilot_remember"
  then handleRemember req (CallParams.Arguments params) s
  else if String.eqb (CallParams.Name params) "memorypilot_status"
  then handleStatus req s
  else sendError (JSONRPCRequest.ID req) (-32602) "Unknown tool" s.

Definition handleRequest (req : JSONRPCRequest.t) (s : Server) : Server :=
  if String.eqb (JSONRPCRequest.Method req) "initialize" then handleInitialize req s
  else if String.eqb (JSONRPCRequest.Method req) "tools/list" then handleToolsList req s
  else if String.eqb (JSONRPCRequest.Method req) "tools/call" then handleToolsCall req s
  else sendError (JSONRPCRequest.ID req) (-32601) "Method not found" s.

(** *** Run

    The main loop, over what the successive calls of ReadString return
    before the end of the stream; the end of the list is io.EOF.  The
    result is the error Run returns, if any, and the server as the loop
    left it. *)
Fixpoint loop (reader : list Read) (s : Server) : option string * Server :=
  match reader with
  | [] => (None, s)
  | ReadError msg :: _ => (Some ("read error: " ++ msg), s)
  | ReadLine line :: rest =>
      let '(req, ok) := decodeRequest line in
      if negb ok then loop rest (sendError JNull (-32700) "Parse error" s)
      else loop rest (handleRequest req s)
  end.

Definition Run (reader : list Read) (s : Server) : option string * Server :=
  loop reader (sendServerInfo s).

End Server.

Arguments Server St X : clear implicits.

(* ================================================================== *)
(** ** The Record Store and the search engine of the specification

    internal/store is not among the sources at hand.  Where a property
    depends on what the store itself does, it is stated against the store
    that sections 4.1, 4.2 and 7 of the specification describe. *)

Module SpecStore.

(** Modelled from the spec: the error taxonomy of section 7, for the
    errors of internal/store (not among the sources).  The specification
    gives no message texts; the message of an error is its name. *)
Inductive StoreError : Type :=
| ValidationError
| NotFoundError
| InvalidQueryError
| InternalError.

#[global] Instance StoreError_error : error StoreError :=
  fun e =>
    match e with
    | ValidationError => "ValidationError"
    | NotFoundError => "NotFoundError"
    | InvalidQueryError => "InvalidQueryError"
    | InternalError => "InternalError"
    end.

(** Modelled from the spec: the closed enumeration of memory types of
    section 3 (pkg/models, not among the sources). *)
Definition memoryTypes : list MemoryType :=
  ["decision"; "pattern"; "fact"; "preference"; "mistake"; "learning"].

Definition validType (t : MemoryType) : bool :=
  existsb (String.eqb t) memoryTypes.

(** Modelled from the spec: the persisted state of internal/store (not
    among the sources): the records in creation order, the optional
    embedding of each by identifier, and the time the store stamps an
    access with. *)
Record State : Type := mkState {
  records : list Memory.t;
  vectors : list (string * Embedding);
  clock : Time
}.

Definition known (id : string) (st : State) : bool :=
  existsb (fun m => String.eqb (Memory.ID m) id) (records st).

(** Modelled from the spec: create of section 4.1 (internal/store's
    CreateMemory, not among the sources): fails with ValidationError if
    content is empty or type is not in the closed enumeration; otherwise
    persists the record.  The identifier is the one the caller put in the
    record, and the record is not changed through the pointer. *)
Definition create (m : Memory.t) (st : State) : option StoreError * Memory.t * State :=
  if String.eqb (Memory.Content m) "" || negb (validType (Memory.Type_ m))
  then (Some ValidationError, m, st)
  else (None, m, mkState (records st ++ [m]) (vectors st) (clock st)).

(** Modelled from the spec: updateEmbedding of section 4.1 (internal/store's
    UpdateMemoryEmbedding, not among the sources): fails with
    NotFoundError if the id is unknown; otherwise overwrites the embedding
    only. *)
Definition updateEmbedding (id : string) (v : Embedding) (st : State)
    : option StoreError * State :=
  if known id st
  then (None,
        mkState (records st)
                ((id, v) :: filter (fun p => negb (String.eqb (fst p) id)) (vectors st))
                (clock st))
  else (Some NotFoundError, st).

(** Modelled from the spec: step 5 of section 4.2, the limit a search
    truncates to: 5 when the limit is not positive. *)
Definition effectiveLimit (limit : Z) : Z :=
  if limit <=? 0 then 5 else limit.

(** Modelled from the spec: the access bookkeeping of section 4.1 and of
    step 6 of section 4.2: every returned record has its access count
    bumped and its last access stamped. *)
Definition touch (hits : list Memory.t) (st : State) : State :=
  let hit (m : Memory.t) :=
    existsb (fun h => String.eqb (Memory.ID h) (Memory.ID m)) hits in
  mkState
    (map (fun m =>
            if hit m
            then Memory.mk (Memory.ID m) (Memory.Type_ m) (Memory.Content m)
                           (Memory.Summary m) (Memory.Scope m) (Memory.Source m)
                           (Memory.Confidence m) (Memory.Importance m)
                           (Memory.Topics m) (Memory.CreatedAt m)
                           (clock st) (Memory.AccessCount m + 1)
            else m)
         (records st))
    (vectors st) (clock st).

Fixpoint countType (t : MemoryType) (l : list Memory.t) : Z :=
  match l with
  | [] => 0
  | m :: rest =>
      (if String.eqb (Memory.Type_ m) t then 1 else 0) + countType t rest
  end.

(** Modelled from the spec: stats of section 4.1 (internal/store's
    GetStats, not among the sources): the total, the number of distinct
    scopes, the count of each type present; no side effect. *)
Definition stats (st : State) : result StoreError Stats.t * State :=
  (Ok (Stats.mk (Z.of_nat (List.length (records st)))
                (Z.of_nat (List.length
                   (nodup string_dec (map Memory.Scope (records st)))))
                (map (fun t => (t, countType t (records st)))
                     (nodup string_dec (map Memory.Type_ (records st))))),
   st).

Section Ranking.

(** The order of the candidates (steps 1 to 4 of section 4.2: keyword
    score, semantic score, fusion, tie-break).  The specification leaves
    the scoring formula open, so the order is a parameter: it is given the
    query, the query vector if there is one, the records and their
    embeddings. *)
Variable rank :
  string -> option Embedding -> list Memory.t -> list (string * Embedding)
  -> list Memory.t.

(** Modelled from the spec: the search of section 4.2 (internal/store's
    Recall and HybridSearch, not among the sources): InvalidQueryError if
    the query is empty; otherwise the ranked candidates truncated to the
    effective limit, each returned record being touched. *)
Definition search (query : string) (queryVector : option Embedding) (limit : Z)
    (st : State) : result StoreError (list Memory.t) * State :=
  if String.eqb query "" then (Err InvalidQueryError, st)
  else
    let hits := firstn (Z.to_nat (effectiveLimit limit))
                       (rank query queryVector (records st) (vectors st)) in
    (Ok hits, touch hits st).

Definition api : StoreAPI State StoreError :=
  {| HybridSearch := fun query v limit => search query (Some v) limit;
     Recall := fun req =>
       search (RecallRequest.Query req) None (RecallRequest.Limit req);
     CreateMemory := create;
     UpdateMemoryEmbedding := updateEmbedding;
     GetStats := stats |}.

End Ranking.

End SpecStore.

(* ================================================================== *)
(** ** Test doubles, to run the adapter on concrete inputs *)

Module Probe.

(** A store that only records the calls it receives. *)
Inductive Call : Type :=
| CallHybridSearch (query : string) (v : Embedding) (limit : Z)
| CallRecall (req : RecallRequest.t)
| CallCreateMemory (m : Memory.t)
| CallUpdateMemoryEmbedding (id : string) (v : Embedding)
| CallGetStats.

#[global] Instance message_error : error string := fun e => e.

Definition api : StoreAPI (list Call) string :=
  {| HybridSearch := fun query v limit log =>
       (Ok [], (log ++ [CallHybridSearch query v limit])%list);
     Recall := fun req log => (Ok [], (log ++ [CallRecall req])%list);
     CreateMemory := fun m log => (None, m, (log ++ [CallCreateMemory m])%list);
     UpdateMemoryEmbedding := fun id v log =>
       (None, (log ++ [CallUpdateMemoryEmbedding id v])%list);
     GetStats := fun log => (Ok (Stats.mk 0 0 []), (log ++ [CallGetStats])%list) |}.

(** A scripted world: the outcomes of the coming Embed calls (an error
    once the script is over), a clock that advances by one at each
    reading, the identifiers to hand out. *)
Record World : Type := mkWorld {
  embeds : list EmbedResult;
  time : Time;
  ulids : list string
}.

Definition quote_mark : string := String (ascii_of_nat 34) EmptyString.

Definition runtime : Runtime World :=
  {| Embed := fun _ w =>
       match embeds w with
       | [] => (EmbedError, w)
       | e :: rest => (e, mkWorld rest (time w) (ulids w))
       end;
     Now := fun w => (time w, mkWorld (embeds w) (time w + 1) (ulids w));
     MakeULID := fun w =>
       match ulids w with
       | [] => ("", w)
       | id :: rest => (id, mkWorld (embeds w) (time w) rest)
       end;
     Quote := fun s => quote_mark ++ s ++ quote_mark |}.

(** A conversion for the runs below: an integer literal in its shortest
    form and of magnitude at most 2^53 is held exactly by a float64 and
    written back digit for digit.  The runs use no other number where an
    interface{} is decoded; for those this conversion reports an error. *)
Definition strconv : Strconv :=
  fun lit =>
    match ParseInt lit with
    | Some z =>
        if (String.eqb (Itoa z) lit && (Z.abs z <=? 2 ^ 53))%bool
        then Some lit else None
    | None => None
    end.

(** A ranking for the store of the specification: the records whose
    content contains the query, oldest first. *)
Fixpoint contains (needle hay : string) : bool :=
  match hay with
  | EmptyString => String.eqb needle ""
  | String _ rest => prefix needle hay || contains needle rest
  end.

Definition bySubstring (query : string) (_ : option Embedding)
    (records : list Memory.t) (_ : list (string * Embedding)) : list Memory.t :=
  filter (fun m => contains query (Memory.Content m)) records.

Definition world0 : World := mkWorld [] 1000 ["01J0000000000000000000000A"].

Definition request (id : any) (name : string) (args : json) : JSONRPCRequest.t :=
  JSONRPCRequest.mk "2.0" id "tools/call"
    (Some (JObject [("name", JString name); ("arguments", args)])).

Definition long_content : string :=
  "Use Redis for caching the embeddings of every memory, keyed by the content hash, "
  ++ "and expire the entries after one day.".

End Probe.

(* ================================================================== *)
(** ** A store that keeps the list of the calls made to it

    Any store can be wrapped so that every call is also appended to a log,
    oldest first.  The adapter runs over the wrapped store as over any
    other; the log then tells which calls a request made. *)

Module Traced.
Import Probe.

Section Wrap.

Context {St E : Type} (db : StoreAPI St E).

Definition logged {A : Type} (c : Call) (f : St -> A * St)
    (st : St * list Call) : A * (St * list Call) :=
  let '(a, st') := f (fst st) in (a, (st', (snd st ++ [c])%list)).

Definition api : StoreAPI (St * list Call) E :=
  {| HybridSearch := fun query v limit =>
       logged (CallHybridSearch query v limit) (HybridSearch query v limit);
     Recall := fun req => logged (CallRecall req) (Recall req);
     CreateMemory := fun m => logged (CallCreateMemory m) (CreateMemory m);
     UpdateMemoryEmbedding := fun id v =>
       logged (CallUpdateMemoryEmbedding id v) (UpdateMemoryEmbedding id v);
     GetStats := logged CallGetStats GetStats |}.

End Wrap.

(** The calls one request may make: none; one search; one GetStats; one
    CreateMemory, followed or not by one UpdateMemoryEmbedding. *)
Definition oneRequest (calls : list Call) : bool :=
  match calls with
  | [] => true
  | [CallHybridSearch _ _ _] => true
  | [CallRecall _] => true
  | [CallGetStats] => true
  | [CallCreateMemory _] => true
  | [CallCreateMemory _; CallUpdateMemoryEmbedding _ _] => true
  | _ => false
  end.

Definition isWrite (c : Call) : bool :=
  match c with
  | CallCreateMemory _ | CallUpdateMemoryEmbedding _ _ => true
  | _ => false
  end.

(** A server over a wrapped store; the same server with the log
    forgotten; the log. *)
Definition TServer (St X : Type) : Type := Server (St * list Call) X.

Definition erase {St X : Type} (s : TServer St X) : Server St X :=
  mkServer (fst (store s)) (world s) (writer s).

Definition calls {St X : Type} (s : TServer St X) : list Call := snd (store s).

End Traced.

(* ================================================================== *)
(** ** cmd/daemon.go: the PID file and the daemon commands *)

Module daemon.

(** strconv.Atoi, on a 64-bit platform. *)
Definition Atoi (s : string) : option Z := ParseInt s.

(** The signals daemon.go names: syscall.Signal(0), which only probes,
    SIGINT and SIGTERM. *)
Inductive Signal : Type :=
| Signal0
| SIGINT
| SIGTERM.

(** What daemon.go asks of the operating system and of internal/agent.
    [W] is the state of the machine, [E] the type of the errors.
    - ReadFile, WriteFile (with mode 0644), Remove: package os;
    - FindProcess followed by SendSignal: os.FindProcess and the method
      Signal of the process it returns;
    - Executable, Getpid: package os;
    - StartCommand: exec.Command(name, args...) started detached, with
      its standard streams closed; the result is the pid of the child;
    - AgentNew: agent.New on the default configuration with the data
      directory set; AgentStart, AgentStop: the methods of the agent;
    - AwaitSignal: the receive on the channel that signal.Notify feeds
      with SIGINT and SIGTERM.  The receive blocks; the model describes
      the runs in which a signal arrives. *)
Class OS (W E : Type) : Type := {
  ReadFile : string -> W -> result E string * W;
  WriteFile : string -> string -> W -> option E * W;
  Remove : string -> W -> option E * W;
  FindProcess : Z -> W -> option E * W;
  SendSignal : Z -> Signal -> W -> option E * W;
  Executable : W -> result E string * W;
  Getpid : W -> Z * W;
  StartCommand : string -> list string -> W -> result E Z * W;
  AgentNew : W -> option E * W;
  AgentStart : W -> option E * W;
  AgentStop : W -> W;
  AwaitSignal : W -> W
}.

(** Why readPidFile failed: the file could not be read, or its content
    is not a number. *)
Inductive PidFileError (E : Type) : Type :=
| Unreadable (e : E)
| NotANumber (data : string).
Arguments Unreadable {E} e.
Arguments NotANumber {E} data.

Section Commands.

Context {W E : Type} {E_error : error E} {os : OS W E}.

(** getPidFilePath(): the file memorypilot.pid of the configuration
    directory.  The directory comes from getConfigDir, which is defined
    outside daemon.go, so the path is a parameter. *)
Variable pidFilePath : string.

(** The process: the machine, and what it has written to its standard
    output and to its standard error, one entry for each call of a print
    function, oldest first. *)
Record Proc : Type := mkProc {
  sys : W;
  stdout : list string;
  stderr : list string
}.

Definition onSys {A : Type} (f : W -> A * W) (p : Proc) : A * Proc :=
  let '(a, w) := f (sys p) in (a, mkProc w (stdout p) (stderr p)).

Definition Println (text : string) (p : Proc) : Proc :=
  mkProc (sys p) (stdout p ++ [text ++ nl]) (stderr p).

Definition Eprint (text : string) (p : Proc) : Proc :=
  mkProc (sys p) (stdout p) (stderr p ++ [text]).

Definition writePidFile (pid : Z) (p : Proc) : option E * Proc :=
  onSys (WriteFile pidFilePath (Itoa pid)) p.

Definition readPidFile (p : Proc) : result (PidFileError E) Z * Proc :=
  let '(read, p1) := onSys (ReadFile pidFilePath) p in
  match read with
  | Err err => (Err (Unreadable err), p1)
  | Ok data =>
      match Atoi data with
      | Some pid => (Ok pid, p1)
      | None => (Err (NotANumber data), p1)
      end
  end.

Definition removePidFile (p : Proc) : Proc :=
  snd (onSys (Remove pidFilePath) p).

Definition isProcessRunning (pid : Z) (p : Proc) : bool * Proc :=
  let '(err, p1) := onSys (FindProcess pid) p in
  match err with
  | Some _ => (false, p1)
  | None =>
      let '(err, p2) := onSys (SendSignal pid Signal0) p1 in
      (match err with None => true | Some _ => false end, p2)
  end.

(** The RunE of daemonStopCmd.  The result is the error it returns. *)
Definition daemonStop (p : Proc) : option string * Proc :=
  let '(read, p1) := readPidFile p in
  match read with
  | Err _ =>
      (None, Println "❌ MemoryPilot daemon is not running (no PID file)" p1)
  | Ok pid =>
      let '(running, p2) := isProcessRunning pid p1 in
      if negb running then
        (None,
         removePidFile
           (Println "❌ MemoryPilot daemon is not running (stale PID file)" p2))
      else
        let p3 :=
          Println ("🛑 Stopping MemoryPilot daemon (PID " ++ Itoa pid ++ ")...") p2 in
        let '(err, p4) := onSys (FindProcess pid) p3 in
        match err with
        | Some err => (Some ("failed to find process: " ++ Error err), p4)
        | None =>
            let '(err, p5) := onSys (SendSignal pid SIGTERM) p4 in
            match err with
            | Some err => (Some ("failed to stop daemon: " ++ Error err), p5)
            | None => (None, Println "✅ MemoryPilot daemon stopped" p5)
            end
        end
  end.

Definition statusReport (pid : Z) : list string :=
  ["🟢 MemoryPilot daemon is running (PID " ++ Itoa pid ++ ")";
   "";
   "Watched directories:";
   "  • ~/Documents/source-code/";
   "  • ~/Projects/";
   "";
   "Watching:";
   "  • Git commits";
   "  • File changes";
   "  • Terminal commands"].

(** The RunE of daemonStatusCmd. *)
Definition daemonStatus (p : Proc) : option string * Proc :=
  let '(read, p1) := readPidFile p in
  match read with
  | Err _ => (None, Println "🔴 MemoryPilot daemon is not running" p1)
  | Ok pid =>
      let '(running, p2) := isProcessRunning pid p1 in
      if negb running then
        (None,
         removePidFile
           (Println "🔴 MemoryPilot daemon is not running (stale PID file)" p2))
      else
        (None, fold_left (fun q line => Println line q) (statusReport pid) p2)
  end.

(** Lines 58-66 of the RunE of daemonStartCmd: [Some pid] when a daemon
    with that pid answers, in which case the command stops there; [None]
    otherwise, a stale PID file having been removed. *)
Definition alreadyRunning (p : Proc) : option Z * Proc :=
  let '(read, p1) := readPidFile p in
  match read with
  | Err _ => (None, p1)
  | Ok pid =>
      let '(running, p2) := isProcessRunning pid p1 in
      if running then (Some pid, p2) else (None, removePidFile p2)
  end.

(** Lines 68-91: the daemon is started again as a detached child. *)
Definition startBackground (p : Proc) : option string * Proc :=
  let '(exe, p1) := onSys Executable p in
  match exe with
  | Err err => (Some ("failed to get executable path: " ++ Error err), p1)
  | Ok exe =>
      let '(started, p2) := onSys (StartCommand exe ["daemon"; "start"]) p1 in
      match started with
      | Err err =>
          (Some ("failed to start background process: " ++ Error err), p2)
      | Ok pid =>
          (None,
           Println "   Use 'memorypilot daemon stop' to stop"
             (Println "   Use 'memorypilot daemon status' to check"
                (Println ("✅ MemoryPilot daemon started (PID " ++ Itoa pid ++ ")")
                         p2)))
      end
  end.

(** Lines 101-126: the agent runs until a signal arrives. *)
Definition runAgent (p : Proc) : option string * Proc :=
  let '(err, p1) := onSys AgentNew p in
  match err with
  | Some err => (Some ("failed to create agent: " ++ Error err), p1)
  | None =>
      let '(err, p2) := onSys AgentStart p1 in
      match err with
      | Some err => (Some ("failed to start agent: " ++ Error err), p2)
      | None =>
          let p3 :=
            Println "   Press Ctrl+C to stop"
              (Println "   Watching for events..."
                 (Println "✅ MemoryPilot daemon started" p2)) in
          let p4 := snd (onSys (fun w => (tt, AwaitSignal w)) p3) in
          let p5 := Println (nl ++ "🛑 Shutting down...") p4 in
          let p6 := snd (onSys (fun w => (tt, AgentStop w)) p5) in
          (None, Println "✅ MemoryPilot daemon stopped" p6)
      end
  end.

(** Lines 93-126: the daemon in the foreground.  The removal of the PID
    file is deferred: it runs when the function returns, whatever it
    returns. *)
Definition startForeground (p : Proc) : option string * Proc :=
  let p1 := Println "🧠 Starting MemoryPilot daemon..." p in
  let '(pid, p2) := onSys Getpid p1 in
  let '(err, p3) := writePidFile pid p2 in
  let p4 :=
    match err with
    | Some err =>
        Eprint ("Warning: Failed to write PID file: " ++ Error err ++ nl) p3
    | None => p3
    end in
  let '(ret, p5) := runAgent p4 in
  (ret, removePidFile p5).

(** The RunE of daemonStartCmd, given the value of the flag background. *)
Definition daemonStart (background : bool) (p : Proc) : option string * Proc :=
  let '(running, p1) := alreadyRunning p in
  match running with
  | Some pid =>
      (None,
       Println ("❌ MemoryPilot daemon already running (PID " ++ Itoa pid ++ ")") p1)
  | None => if background then startBackground p1 else startForeground p1
  end.

End Commands.

Arguments Proc W : clear implicits.

(** The calls made to the operating system, for the wrapped machine
    below. *)
Inductive SysCall : Type :=
| CallReadFile (name : string)
| CallWriteFile (name data : string)
| CallRemove (name : string)
| CallFindProcess (pid : Z)
| CallSendSignal (pid : Z) (sig : Signal)
| CallExecutable
| CallGetpid
| CallStartCommand (name : string) (args : list string)
| CallAgentNew
| CallAgentStart
| CallAgentStop
| CallAwaitSignal.

Section Wrap.

Context {W E : Type} (os : OS W E).

Definition logged {A : Type} (c : SysCall) (f : W -> A * W)
    (w : W * list SysCall) : A * (W * list SysCall) :=
  let '(a, w') := f (fst w) in (a, (w', (snd w ++ [c])%list)).

(** Any machine, wrapped so that every call is also appended to a log. *)
Definition traced : OS (W * list SysCall) E :=
  {| ReadFile := fun name => logged (CallReadFile name) (ReadFile name);
     WriteFile := fun name data =>
       logged (CallWriteFile name data) (WriteFile name data);
     Remove := fun name => logged (CallRemove name) (Remove name);
     FindProcess := fun pid => logged (CallFindProcess pid) (FindProcess pid);
     SendSignal := fun pid sig =>
       logged (CallSendSignal pid sig) (SendSignal pid sig);
     Executable := logged CallExecutable Executable;
     Getpid := logged CallGetpid Getpid;
     StartCommand := fun name args =>
       logged (CallStartCommand name args) (StartCommand name args);
     AgentNew := logged CallAgentNew AgentNew;
     AgentStart := logged CallAgentStart AgentStart;
     AgentStop := fun w => snd (logged CallAgentStop (fun x => (tt, AgentStop x)) w);
     AwaitSignal := fun w =>
       snd (logged CallAwaitSignal (fun x => (tt, AwaitSignal x)) w) |}.

End Wrap.

Definition isKill (c : SysCall) : bool :=
  match c with
  | CallSendSignal _ SIGTERM | CallSendSignal _ SIGINT => true
  | _ => false
  end.

Definition changesFiles (c : SysCall) : bool :=
  match c with
  | CallWriteFile _ _ | CallRemove _ => true
  | _ => false
  end.

(** A process over a wrapped machine; the same process with the log
    forgotten; the log. *)
Definition TProc (W : Type) : Type := Proc (W * list SysCall).

Definition eraseProc {W : Type} (p : TProc W) : Proc W :=
  mkProc (fst (sys p)) (stdout p) (stderr p).

Definition calls {W : Type} (p : TProc W) : list SysCall := snd (sys p).

(** The calls of readPidFile followed by isProcessRunning, when the
    process does not answer: the file cannot be used, or FindProcess
    fails, or the probe fails. *)
Definition probeCalls (path : string) (pid : Z) : list SysCall :=
  [CallReadFile path; CallFindProcess pid; CallSendSignal pid Signal0].

(** The sequences of calls of the status command. *)
Definition statusCalls (path : string) (cs : list SysCall) : Prop :=
  cs = [CallReadFile path]
  \/ exists pid,
       cs = [CallReadFile path; CallFindProcess pid; CallRemove path]
       \/ cs = (probeCalls path pid ++ [CallRemove path])%list
       \/ cs = probeCalls path pid.

(** The sequences of calls of the stop command. *)
Definition stopCalls (path : string) (cs : list SysCall) : Prop :=
  cs = [CallReadFile path]
  \/ exists pid,
       cs = [CallReadFile path; CallFindProcess pid; CallRemove path]
       \/ cs = (probeCalls path pid ++ [CallRemove path])%list
       \/ cs = (probeCalls path pid ++ [CallFindProcess pid])%list
       \/ cs = (probeCalls path pid
                ++ [CallFindProcess pid; CallSendSignal pid SIGTERM])%list.

(** The sequences of calls of the agent part of a foreground start. *)
Definition agentCalls (cs : list SysCall) : Prop :=
  cs = [CallAgentNew]
  \/ cs = [CallAgentNew; CallAgentStart]
  \/ cs = [CallAgentNew; CallAgentStart; CallAwaitSignal; CallAgentStop].

(** What a machine answers, for the statements about the commands. *)
Section Outcomes.

Context {W E : Type} {os : OS W E}.

(** The pid the PID file gives on a machine: the content of the file,
    when it can be read and is a number. *)
Definition pidInFile (path : string) (w : W) : option Z :=
  match fst (ReadFile path w) with
  | Ok data => Atoi data
  | Err _ => None
  end.

(** The machine once the PID file was read. *)
Definition afterRead (path : string) (w : W) : W := snd (ReadFile path w).

(** A process answers when FindProcess finds it and the signal 0 is then
    delivered to it. *)
Definition processAnswers (pid : Z) (w : W) : bool :=
  match fst (FindProcess pid w) with
  | Some _ => false
  | None =>
      match fst (SendSignal pid Signal0 (snd (FindProcess pid w))) with
      | None => true
      | Some _ => false
      end
  end.

(** The machine once the process was probed: the signal 0 is only sent
    to a process that was found. *)
Definition afterProbe (pid : Z) (w : W) : W :=
  match fst (FindProcess pid w) with
  | Some _ => snd (FindProcess pid w)
  | None => snd (SendSignal pid Signal0 (snd (FindProcess pid w)))
  end.

(** The calls of reading the PID file and probing its pid. *)
Definition probeOf (path : string) (pid : Z) (w : W) : list SysCall :=
  match fst (FindProcess pid w) with
  | Some _ => [CallReadFile path; CallFindProcess pid]
  | None => probeCalls path pid
  end.

(** The machine once the start command has looked for a running daemon:
    a PID file whose pid does not answer has been removed. *)
Definition afterGuard (path : string) (w : W) : W :=
  match pidInFile path w with
  | None => afterRead path w
  | Some pid =>
      let w2 := afterProbe pid (afterRead path w) in
      if processAnswers pid (afterRead path w) then w2 else snd (Remove path w2)
  end.

(** What Println writes for each of the texts. *)
Definition printed (texts : list string) : list string :=
  map (fun text => text ++ nl) texts.

End Outcomes.

(** A small machine to run the commands on: the files by name, the pids
    of the live processes, the pid of the process itself. *)
Module Machine.

Record t : Type := mk {
  files : list (string * string);
  live : list Z;
  self : Z
}.

Fixpoint lookup (name : string) (fs : list (string * string)) : option string :=
  match fs with
  | [] => None
  | (n, data) :: rest => if String.eqb n name then Some data else lookup name rest
  end.

Definition without (name : string) (fs : list (string * string))
    : list (string * string) :=
  filter (fun f => negb (String.eqb (fst f) name)) fs.

Definition alive (pid : Z) (m : t) : bool := existsb (Z.eqb pid) (live m).

Definition os : OS t string :=
  {| ReadFile := fun name m =>
       (match lookup name (files m) with
        | Some data => Ok data
        | None => Err "no such file or directory"
        end, m);
     WriteFile := fun name data m =>
       (None, mk ((name, data) :: without name (files m)) (live m) (self m));
     Remove := fun name m =>
       (match lookup name (files m) with
        | Some _ => None
        | None => Some "no such file or directory"
        end, mk (without name (files m)) (live m) (self m));
     FindProcess := fun _ m => (None, m);
     SendSignal := fun pid sig m =>
       if alive pid m
       then (None,
             match sig with
             | Signal0 => m
             | _ => mk (files m) (filter (fun q => negb (Z.eqb q pid)) (live m))
                       (self m)
             end)
       else (Some "os: process already finished", m);
     Executable := fun m => (Ok "/usr/local/bin/memorypilot", m);
     Getpid := fun m => (self m, m);
     StartCommand := fun _ _ m =>
       (Ok (self m + 1), mk (files m) (self m + 1 :: live m) (self m));
     AgentNew := fun m => (None, m);
     AgentStart := fun m => (None, m);
     AgentStop := fun m => m;
     AwaitSignal := fun m => m |}.

Definition pidPath : string := "/home/user/.memorypilot/memorypilot.pid".

Definition boot (fs : list (string * string)) (live : list Z) : Proc t :=
  mkProc (mk fs live 4242) [] [].

End Machine.

End daemon.

(* ================================================================== *)
(** ** Vocabulary of the statements *)

Fixpoint isASCII (s : string) : bool :=
  match s with
  | EmptyString => true
  | String c rest => Nat.ltb (byte c) 128 && isASCII rest
  end.

Definition lineMember (name : string) (line : json) : option json :=
  match line with
  | JObject members => member name members
  | _ => None
  end.

(** A success response and an error response, as sendResult and sendError
    build them. *)
Definition success (id result : any) : JSONRPCResponse.t :=
  JSONRPCResponse.mk "2.0" id result None.

Definition failure (id : any) (code : Z) (message : string) : JSONRPCResponse.t :=
  JSONRPCResponse.mk "2.0" id JNull (Some (RPCError.mk code message)).

Definition isSuccess (resp : JSONRPCResponse.t) : Prop :=
  JSONRPCResponse.Error resp = None.

Definition errorCode (resp : JSONRPCResponse.t) : option Z :=
  option_map RPCError.Code (JSONRPCResponse.Error resp).

(** A response to [req]: version 2.0 and the identifier of the request. *)
Definition answers (req : JSONRPCRequest.t) (resp : JSONRPCResponse.t) : Prop :=
  JSONRPCResponse.JSONRPC resp = "2.0"
  /\ JSONRPCResponse.ID resp = JSONRPCRequest.ID req.

(** The arguments as the decoder leaves them, before any default. *)
Definition decodedRecall (args : RawMessage) : RecallParams.t * bool :=
  Unmarshal RecallParams.names RecallParams.set args RecallParams.zero.

Definition decodedRemember (args : RawMessage) : RememberParams.t * bool :=
  let r := Unmarshal RememberParams.names RememberParams.set args
                     RememberParams.start in
  (RememberParams.value (fst r), snd r).

(** What a member contributes to a field of each type, if it suits it. *)
Definition readString (v : json) : option string :=
  match v with JString s => Some s | _ => None end.

Definition readInt (v : json) : option Z :=
  match v with JNumber lit => ParseInt lit | _ => None end.

Definition readBool (v : json) : option bool :=
  match v with JBool b => Some b | _ => None end.

(** The items a member gives a []string field, if it suits it: those of
    an array, none for null. *)
Definition readItems (v : json) : option (list json) :=
  match v with
  | JArray items => Some items
  | JNull => Some []
  | _ => None
  end.

(** Topics decoded from the items of an array: as many as the items, and,
    at the place of every item that is a string, that string. *)
Definition topicsFrom (items : list json) (topics : list string) : Prop :=
  List.length topics = List.length items
  /\ forall (i : nat) (str : string),
       nth_error items i = Some (JString str) -> nth_error topics i = Some str.

(** The contribution of the last member of the object that is decoded
    into [field] and suits it. *)
Fixpoint lastOf {A : Type} (names : list string) (field : string)
    (read : json -> option A) (members : list (string * json)) : option A :=
  match members with
  | [] => None
  | (key, v) :: rest =>
      match lastOf names field read rest with
      | Some a => Some a
      | None =>
          match fieldFor names key with
          | Some f => if String.eqb f field then read v else None
          | None => None
          end
      end
  end.

Definition orZero {A : Type} (zero : A) (o : option A) : A :=
  match o with Some a => a | None => zero end.

(** The arguments of recall, field by field: the value of the last member
    that suits the field, the zero value if none does. *)
Definition lastRecall (members : list (string * json)) : RecallParams.t :=
  RecallParams.mk
    (orZero "" (lastOf RecallParams.names "query" readString members))
    (orZero 0 (lastOf RecallParams.names "limit" readInt members))
    (orZero false (lastOf RecallParams.names "semantic" readBool members)).

(** The arguments of remember against the members they were decoded
    from: content and type as above; the topics are empty if no member
    gives the field an array or null, and are otherwise decoded from the
    items of the last member that does. *)
Definition rememberFields (members : list (string * json)) (p : RememberParams.t)
    : Prop :=
  RememberParams.Content p
  = orZero "" (lastOf RememberParams.names "content" readString members)
  /\ RememberParams.Type_ p
     = orZero "" (lastOf RememberParams.names "type" readString members)
  /\ match lastOf RememberParams.names "topics" readItems members with
     | None => RememberParams.Topics p = []
     | Some items => topicsFrom items (RememberParams.Topics p)
     end.

Definition onlyLines (reader : list Read) : Prop :=
  forall r, In r reader -> exists line, r = ReadLine line.

Section Vocabulary.

Context {St E X : Type} {db : StoreAPI St E}.

(** The keyword-only recall of the store, called directly with a query
    and a limit. *)
Definition directRecall (query : string) (limit : Z) (st : St)
    : result E (list Memory.t) * St :=
  Recall (RecallRequest.mk query limit) st.

(** [s'] is [s] with exactly one more line written, the encoding of
    [resp]. *)
Definition wrote (resp : JSONRPCResponse.t) (s s' : Server St X) : Prop :=
  writer s' = (writer s ++ [Marshal resp])%list.

End Vocabulary.

Module ProbeRuns.
Import Probe.

Definition s0 : Server (list Call) World := mkServer [] world0 [].

Definition run (req : JSONRPCRequest.t) (w : World) : Server (list Call) World :=
  handleRequest (db := api) (rt := runtime) req (mkServer [] w []).

(** The store of the specification, empty, ranked by [bySubstring]. *)
Definition spec0 : Server SpecStore.State World :=
  mkServer (SpecStore.mkState [] [] 0) world0 [].

Definition specRun (req : JSONRPCRequest.t) : Server SpecStore.State World :=
  handleRequest (db := SpecStore.api bySubstring) (rt := runtime) req spec0.

Definition recallArgs (query limit : json) : json :=
  JObject [("query", query); ("limit", limit)].

Definition rememberArgs (content type : json) : json :=
  JObject [("content", content); ("type", type)].

(** Seven records that all contain the word caching. *)
Definition sevenRecords : list Memory.t :=
  map (fun id => newMemory (RememberParams.mk ("caching note " ++ id) "fact" []) 0 id)
      ["a"; "b"; "c"; "d"; "e"; "f"; "g"].

Definition badLine : Line := BadSyntax "{oops".

Definition initializeLine : Line :=
  Text (JObject [("jsonrpc", JString "2.0"); ("id", JNumber "1");
                 ("method", JString "initialize")]).

Definition initializeRequest : JSONRPCRequest.t :=
  JSONRPCRequest.mk "2.0" (JNumber "1") "initialize" None.

End ProbeRuns.

(** A value that suits a string field: a string, or null. *)
Definition stringOrNull (v : json) : bool :=
  match v with JString _ | JNull => true | _ => false end.

(** Every member of the object that is decoded into one of the fields
    [stringFields] is a string or null. *)
Definition wellTyped (names stringFields : list string)
    (members : list (string * json)) : bool :=
  forallb (fun kv =>
             match fieldFor names (fst kv) with
             | Some f =>
                 if existsb (String.eqb f) stringFields
                 then stringOrNull (snd kv) else true
             | None => true
             end) members.

(** The request an object decodes to, field by field. *)
Definition lastRequest {sc : Strconv} (members : list (string * json))
    : JSONRPCRequest.t :=
  JSONRPCRequest.mk
    (orZero "" (lastOf JSONRPCRequest.names "jsonrpc" readString members))
    (orZero JNull (lastOf JSONRPCRequest.names "id" goValue members))
    (orZero "" (lastOf JSONRPCRequest.names "method" readString members))
    (orZero None (lastOf JSONRPCRequest.names "params"
                         (fun v => Some (Some v)) members)).

(** What the decoder accepts of a member decoded into a field of a
    request: a string or null for jsonrpc and for method, for id any value
    that holds no number out of the range of float64, anything for
    params. *)
Definition suitsRequest {sc : Strconv} (field : string) (v : json) : bool :=
  if existsb (String.eqb field) ["jsonrpc"; "method"] then stringOrNull v
  else if String.eqb field "id"
       then match goValue v with Some _ => true | None => false end
       else true.

Definition acceptedRequest {sc : Strconv} (members : list (string * json)) : bool :=
  forallb (fun kv =>
             match fieldFor JSONRPCRequest.names (fst kv) with
             | Some f => suitsRequest f (snd kv)
             | None => true
             end) members.

(** The responses a handler may write to a request of identifier [id]:
    the server information, the list of tools, a text, or an error with
    one of three codes. *)
Inductive Reply (id : any) : JSONRPCResponse.t -> Prop :=
| ReplyInfo : Reply id (success id serverInfo)
| ReplyTools : Reply id (success id toolsList)
| ReplyText (text : string) : Reply id (success id (textContent text))
| ReplyError (code : Z) (message : string) :
    In code [-32601; -32602; -32000] -> Reply id (failure id code message).

(** The reads before the first read error, and that error. *)
Fixpoint linesRead (reader : list Read) : nat :=
  match reader with
  | ReadLine _ :: rest => Datatypes.S (linesRead rest)
  | _ => O
  end.

Fixpoint firstError (reader : list Read) : option string :=
  match reader with
  | [] => None
  | ReadLine _ :: rest => firstError rest
  | ReadError msg :: _ => Some msg
  end.

(** The name of the tool a tools/call asks for, as decoded from the
    members of its params. *)
Definition toolName (members : list (string * json)) : string :=
  orZero "" (lastOf CallParams.names "name" readString members).

Definition knownTool (name : string) : bool :=
  existsb (String.eqb name)
          ["memorypilot_recall"; "memorypilot_remember"; "memorypilot_status"].

(* ================================================================== *)
(** * Properties *)

(** ** Strings *)

Lemma length_append (a b : string) :
  String.length (a ++ b) = (String.length a + String.length b)%nat.
Proof.
  induction a as [|c a IH]; simpl; [reflexivity | now rewrite IH].
Qed.

Lemma length_substring_0 (n : nat) : forall s : string,
  (n <= String.length s)%nat -> String.length (substring 0 n s) = n.
Proof.
  induction n as [|n IH]; intros s Hn.
  - destruct s; reflexivity.
  - destruct s as [|c s]; simpl in *; [lia |].
    rewrite IH; [reflexivity | lia].
Qed.

Lemma len_append (a b : string) : len (a ++ b) = len a + len b.
Proof. unfold len. rewrite length_append. lia. Qed.

(** ** truncateStr *)

Lemma truncateStr_short (s : string) (maxLen : Z) :
  len s <= maxLen -> truncateStr s maxLen = Some s.
Proof.
  intros H. unfold truncateStr.
  destruct (Z.leb_spec (len s) maxLen); [reflexivity | lia].
Qed.

Lemma truncateStr_long (s : string) (maxLen : Z) :
  3 <= maxLen -> maxLen < len s ->
  truncateStr s maxLen = Some (substring 0 (Z.to_nat (maxLen - 3)) s ++ "...").
Proof.
  intros H3 H. unfold truncateStr, slice_to.
  destruct (Z.leb_spec (len s) maxLen); [lia |].
  destruct (Z.ltb_spec (maxLen - 3) 0); [lia |].
  destruct (Z.ltb_spec (len s) (maxLen - 3)); [lia |].
  reflexivity.
Qed.

Lemma truncateStr_long_len (s : string) (maxLen : Z) :
  3 <= maxLen -> maxLen < len s ->
  len (substring 0 (Z.to_nat (maxLen - 3)) s ++ "...") = maxLen.
Proof.
  intros H3 H. rewrite len_append. unfold len in *.
  rewrite length_substring_0 by lia. simpl. lia.
Qed.

(** At the bound of the summary truncateStr never panics. *)
Lemma truncateStr_100 (s : string) :
  truncateStr s defaultSummaryLen = Some (summaryOf s).
Proof.
  unfold summaryOf.
  destruct (Z.le_gt_cases (len s) defaultSummaryLen) as [H|H].
  - now rewrite truncateStr_short.
  - now rewrite truncateStr_long by (unfold defaultSummaryLen in *; lia).
Qed.

(** The panic of truncateStr: a bound under 3 and a longer string. *)
Lemma truncateStr_panics (s : string) (maxLen : Z) :
  maxLen < 3 -> maxLen < len s -> truncateStr s maxLen = None.
Proof.
  intros H3 H. unfold truncateStr, slice_to.
  destruct (Z.leb_spec (len s) maxLen); [lia |].
  destruct (Z.ltb_spec (maxLen - 3) 0); [reflexivity | lia].
Qed.

(** ** What the decoder leaves in a struct *)

Lemma object_field {T A : Type} (proj : T -> A) (names : list string)
    (set : string -> json -> T -> T * bool) (field : string)
    (read : json -> option A) :
  (forall f v p,
     proj (fst (set f v p)) =
     if String.eqb f field then orZero (proj p) (read v) else proj p) ->
  forall members p,
    proj (fst (object names set members p)) =
    orZero (proj p) (lastOf names field read members).
Proof.
  intros Hset. induction members as [|[key v] rest IH]; intros p.
  - reflexivity.
  - simpl.
    destruct (fieldFor names key) as [f|].
    + specialize (Hset f v p).
      destruct (set f v p) as [p1 ok1]. simpl in Hset.
      specialize (IH p1).
      destruct (object names set rest p1) as [p2 ok2]. simpl in *.
      rewrite IH.
      destruct (lastOf names field read rest); [reflexivity |].
      simpl. rewrite Hset.
      destruct (String.eqb f field); reflexivity.
    + specialize (IH p).
      destruct (object names set rest p) as [p2 ok2]. simpl in *.
      rewrite IH. now destruct (lastOf names field read rest).
Qed.

Ltac set_cases f :=
  repeat match goal with
    | |- context [String.eqb f ?name] =>
        let Heq := fresh "Heq" in
        destruct (String.eqb_spec f name) as [Heq|Heq];
        [subst f; simpl |]
    end.

Lemma object_recall members :
  fst (object RecallParams.names RecallParams.set members RecallParams.zero)
  = lastRecall members.
Proof.
  pose proof (object_field RecallParams.Query RecallParams.names RecallParams.set
                "query" readString) as Hq.
  pose proof (object_field RecallParams.Limit RecallParams.names RecallParams.set
                "limit" readInt) as Hl.
  pose proof (object_field RecallParams.Semantic RecallParams.names RecallParams.set
                "semantic" readBool) as Hs.
  specialize (Hq ltac:(intros f v p; unfold RecallParams.set; set_cases f;
                        try reflexivity; destruct v; try reflexivity;
                        simpl; destruct (ParseInt lit); reflexivity)
                 members RecallParams.zero).
  specialize (Hl ltac:(intros f v p; unfold RecallParams.set; set_cases f;
                        try reflexivity; destruct v; try reflexivity;
                        simpl; destruct (ParseInt lit); reflexivity)
                 members RecallParams.zero).
  specialize (Hs ltac:(intros f v p; unfold RecallParams.set; set_cases f;
                        try reflexivity; destruct v; try reflexivity;
                        simpl; destruct (ParseInt lit); reflexivity)
                 members RecallParams.zero).
  unfold lastRecall.
  destruct (fst (object RecallParams.names RecallParams.set members RecallParams.zero))
    as [q l b].
  simpl in *. congruence.
Qed.

Lemma object_fold {T A : Type} (proj : T -> A) (names : list string)
    (set : string -> json -> T -> T * bool) (field : string)
    (upd : json -> A -> A) :
  (forall f v p,
     proj (fst (set f v p)) =
     if String.eqb f field then upd v (proj p) else proj p) ->
  forall members p,
    proj (fst (object names set members p)) =
    fold_left (fun acc kv =>
                 match fieldFor names (fst kv) with
                 | Some f => if String.eqb f field then upd (snd kv) acc else acc
                 | None => acc
                 end) members (proj p).
Proof.
  intros Hset. induction members as [|[key v] rest IH]; intros p.
  - reflexivity.
  - simpl.
    destruct (fieldFor names key) as [f|].
    + specialize (Hset f v p).
      destruct (set f v p) as [p1 ok1]. simpl in Hset.
      specialize (IH p1).
      destruct (object names set rest p1) as [p2 ok2]. simpl in *.
      rewrite IH, Hset. reflexivity.
    + specialize (IH p).
      destruct (object names set rest p) as [p2 ok2]. simpl in *.
      exact IH.
Qed.

(** The same for a field whose target is only known once the member was
    decoded without an error. *)
Lemma object_field_ok {T A : Type} (proj : T -> A) (names : list string)
    (set : string -> json -> T -> T * bool) (field : string)
    (read : json -> option A) :
  (forall f v p,
     snd (set f v p) = true ->
     proj (fst (set f v p)) =
     if String.eqb f field then orZero (proj p) (read v) else proj p) ->
  forall members p p',
    object names set members p = (p', true) ->
    proj p' = orZero (proj p) (lastOf names field read members).
Proof.
  intros Hset. induction members as [|[key v] rest IH]; intros p p' H.
  - simpl in H. injection H as <-. reflexivity.
  - simpl in H. simpl.
    destruct (fieldFor names key) as [f|].
    + specialize (Hset f v p).
      destruct (set f v p) as [p1 ok1]. simpl in Hset.
      destruct (object names set rest p1) as [p2 ok2] eqn:Ho.
      injection H as -> Hok. apply andb_true_iff in Hok as [-> ->].
      rewrite (IH p1 p' Ho).
      destruct (lastOf names field read rest); [reflexivity |].
      simpl. rewrite (Hset eq_refl).
      destruct (String.eqb f field); reflexivity.
    + destruct (object names set rest p) as [p2 ok2] eqn:Ho.
      injection H as -> ->.
      rewrite (IH p p' Ho). now destruct (lastOf names field read rest).
Qed.

Lemma length_decodeOver (items : list json) : forall backing,
  List.length (decodeOver items backing) = List.length items.
Proof.
  induction items as [|x items IH]; intros backing; [reflexivity |].
  destruct backing; simpl; now rewrite IH.
Qed.

Lemma decodeOver_string (items : list json) : forall backing (i : nat) str,
  nth_error items i = Some (JString str) ->
  nth_error (map fst (decodeOver items backing)) i = Some str.
Proof.
  induction items as [|x items IH]; intros backing i str H.
  - destruct i; discriminate.
  - destruct i as [|i]; simpl in H.
    + injection H as ->. destruct backing; reflexivity.
    + destruct backing; simpl; now apply IH.
Qed.

Lemma intoStrings_items v cur spare items :
  readItems v = Some items ->
  topicsFrom items (fst (fst (intoStrings v cur spare))).
Proof.
  intros H. destruct v; try discriminate; simpl in H; injection H as <-.
  - split; [reflexivity |]. intros [|i] str Hi; discriminate.
  - destruct items0 as [|x rest].
    + split; [reflexivity |]. intros [|i] str Hi; discriminate.
    + cbn [intoStrings fst]. split.
      * now rewrite length_map, length_decodeOver.
      * intros i str Hi. now apply decodeOver_string.
Qed.

Lemma intoStrings_other v cur spare :
  readItems v = None -> fst (intoStrings v cur spare) = (cur, spare).
Proof. intros H. destruct v; try discriminate; reflexivity. Qed.

Lemma topics_fold (members : list (string * json)) :
  forall st : list string * list string,
    let final :=
      fold_left (fun acc kv =>
                   match fieldFor RememberParams.names (fst kv) with
                   | Some f =>
                       if String.eqb f "topics"
                       then fst (intoStrings (snd kv) (fst acc) (snd acc))
                       else acc
                   | None => acc
                   end) members st in
    match lastOf RememberParams.names "topics" readItems members with
    | None => final = st
    | Some items => topicsFrom items (fst final)
    end.
Proof.
  induction members as [|[key v] rest IH]; intros st; [reflexivity |].
  cbn [fold_left lastOf fst snd]. cbv zeta in IH.
  match goal with
  | |- context [fold_left ?step rest ?st1] => specialize (IH st1)
  end.
  destruct (lastOf RememberParams.names "topics" readItems rest) as [items|];
    [exact IH |].
  cbv zeta. rewrite IH.
  destruct (fieldFor RememberParams.names key) as [f|]; [| reflexivity].
  destruct (String.eqb f "topics"); [| reflexivity].
  destruct (readItems v) as [items|] eqn:Hv.
  - now apply intoStrings_items.
  - rewrite intoStrings_other by exact Hv. now destruct st.
Qed.

Ltac remember_set :=
  let f := fresh "f" in
  let v := fresh "v" in
  let p := fresh "p" in
  intros f v p; cbv beta; unfold RememberParams.set;
  set_cases f;
  try reflexivity;
  try (destruct v; reflexivity);
  destruct v as [| | | |[|]|]; reflexivity.

Ltac request_set :=
  let f := fresh "f" in
  let v := fresh "v" in
  let p := fresh "p" in
  intros f v p; cbv beta; unfold JSONRPCRequest.set;
  destruct (intoAny v (JSONRPCRequest.ID p)) as [? ?];
  set_cases f;
  try reflexivity;
  destruct v; reflexivity.

Lemma object_remember members :
  rememberFields members
    (RememberParams.value
       (fst (object RememberParams.names RememberParams.set members
                    RememberParams.start))).
Proof.
  pose proof (object_field
                (fun d => RememberParams.Content (RememberParams.value d))
                RememberParams.names RememberParams.set "content" readString) as Hc.
  pose proof (object_field
                (fun d => RememberParams.Type_ (RememberParams.value d))
                RememberParams.names RememberParams.set "type" readString) as Ht.
  pose proof (object_fold
                (fun d => (RememberParams.Topics (RememberParams.value d),
                           RememberParams.spare d))
                RememberParams.names RememberParams.set "topics"
                (fun v st => fst (intoStrings v (fst st) (snd st)))) as Hp.
  specialize (Hc ltac:(remember_set) members RememberParams.start).
  specialize (Ht ltac:(remember_set) members RememberParams.start).
  specialize (Hp ltac:(remember_set) members RememberParams.start).
  pose proof (topics_fold members ([], [])) as Hfold. cbv zeta in Hfold.
  cbv beta in Hc, Ht, Hp.
  change (@nil string, @nil string) with
    (RememberParams.Topics (RememberParams.value RememberParams.start),
     RememberParams.spare RememberParams.start) in Hfold.
  rewrite <- Hp in Hfold.
  split; [exact Hc |]. split; [exact Ht |].
  destruct (lastOf RememberParams.names "topics" readItems members).
  - exact Hfold.
  - now injection Hfold.
Qed.

Lemma decodedRecall_fields args :
  fst (decodedRecall args) =
  match args with
  | Some (JObject members) => lastRecall members
  | _ => RecallParams.zero
  end.
Proof.
  unfold decodedRecall, Unmarshal.
  destruct args as [[]|]; try reflexivity. apply object_recall.
Qed.

Lemma decodedRemember_fields args :
  match args with
  | Some (JObject members) => rememberFields members (fst (decodedRemember args))
  | _ => fst (decodedRemember args) = RememberParams.zero
  end.
Proof.
  unfold decodedRemember, Unmarshal.
  destruct args as [[]|]; try reflexivity. apply object_remember.
Qed.

(** ** The encoding of a response *)

Lemma lineMember_id_Marshal (resp : JSONRPCResponse.t) :
  lineMember "id" (Marshal resp) =
  match JSONRPCResponse.ID resp with
  | JNull => None
  | v => Some (encode v)
  end.
Proof.
  destruct resp as [v id result err].
  destruct id, result, err; reflexivity.
Qed.

Lemma coerce_ASCII (s : string) : isASCII s = true -> coerce s = s.
Proof.
  induction s as [|c s IH]; [reflexivity |].
  cbn [isASCII]. intros H. apply andb_true_iff in H as [Hc Hs].
  cbn [coerce]. rewrite Hc. now rewrite IH.
Qed.

(** ** Every handler writes one response, to the identifier of the request *)

Section Handlers.

Context {St E X : Type} {E_error : error E} {db : StoreAPI St E} {rt : Runtime X}
        {sc : Strconv}.

Implicit Types (s : Server St X) (req : JSONRPCRequest.t).

Lemma writer_onStore {A : Type} (f : St -> A * St) s :
  writer (snd (onStore f s)) = writer s.
Proof. unfold onStore. now destruct (f (store s)). Qed.

Lemma writer_onWorld {A : Type} (f : X -> A * X) s :
  writer (snd (onWorld f s)) = writer s.
Proof. unfold onWorld. now destruct (f (world s)). Qed.

Lemma store_onWorld {A : Type} (f : X -> A * X) s :
  store (snd (onWorld f s)) = store s.
Proof. unfold onWorld. now destruct (f (world s)). Qed.

Lemma world_onStore {A : Type} (f : St -> A * St) s :
  world (snd (onStore f s)) = world s.
Proof. unfold onStore. now destruct (f (store s)). Qed.

Lemma wrote_sendResult id result s :
  wrote (success id result) s (sendResult id result s).
Proof. reflexivity. Qed.

Lemma wrote_sendError id code message s :
  wrote (failure id code message) s (sendError id code message s).
Proof. reflexivity. Qed.

Lemma wrote_after resp (s0 s s' : Server St X) :
  writer s = writer s0 -> wrote resp s s' -> wrote resp s0 s'.
Proof. unfold wrote. now intros ->. Qed.

Lemma writer_recallSearch params s :
  writer (snd (recallSearch params s)) = writer s.
Proof.
  unfold recallSearch.
  pose proof (writer_onWorld (Embed (RecallParams.Query params)) s) as Hw.
  destruct (onWorld (Embed (RecallParams.Query params)) s) as [emb s1].
  simpl in Hw.
  destruct emb; rewrite writer_onStore; exact Hw.
Qed.

Lemma handleRecall_answers req args s :
  exists resp, answers req resp /\ wrote resp s (handleRecall req args s).
Proof.
  unfold handleRecall.
  pose proof (writer_recallSearch (recallParams args) s) as Hw.
  destruct (recallSearch (recallParams args) s) as [found s1]. simpl in Hw.
  destruct found as [memories|err]; simpl.
  - eexists; split; [| eapply wrote_after; [exact Hw | apply wrote_sendResult]].
    split; reflexivity.
  - eexists; split; [| eapply wrote_after; [exact Hw | apply wrote_sendError]].
    split; reflexivity.
Qed.

Lemma writer_rememberSave params s :
  writer (snd (rememberSave params s)) = writer s.
Proof.
  unfold rememberSave.
  pose proof (writer_onWorld Now s) as H1.
  destruct (onWorld Now s) as [now s1]. simpl in H1.
  pose proof (writer_onWorld MakeULID s1) as H2.
  destruct (onWorld MakeULID s1) as [id s2]. simpl in H2.
  rewrite writer_onStore. congruence.
Qed.

Lemma writer_embedMemory memory s :
  writer (embedMemory memory s) = writer s.
Proof.
  unfold embedMemory.
  pose proof (writer_onWorld (Embed (Memory.Content memory)) s) as H1.
  destruct (onWorld (Embed (Memory.Content memory)) s) as [emb s1]. simpl in H1.
  destruct emb; try exact H1.
  now rewrite writer_onStore.
Qed.

Lemma handleRemember_answers req args s :
  exists resp, answers req resp /\ wrote resp s (handleRemember req args s).
Proof.
  unfold handleRemember.
  pose proof (writer_rememberSave (rememberParams args) s) as Hw.
  destruct (rememberSave (rememberParams args) s) as [[err memory] s1].
  simpl in Hw.
  destruct err as [err|]; simpl.
  - eexists; split; [| eapply wrote_after; [exact Hw | apply wrote_sendError]].
    split; reflexivity.
  - eexists; split;
      [| eapply wrote_after; [| apply wrote_sendResult]].
    + split; reflexivity.
    + now rewrite writer_embedMemory.
Qed.

Lemma handleStatus_answers req s :
  exists resp, answers req resp /\ wrote resp s (handleStatus req s).
Proof.
  unfold handleStatus.
  pose proof (writer_onStore GetStats s) as Hw.
  destruct (onStore GetStats s) as [got s1]. simpl in Hw.
  destruct got as [stats|err].
  - eexists; split; [| eapply wrote_after; [exact Hw | apply wrote_sendResult]].
    split; reflexivity.
  - eexists; split; [| eapply wrote_after; [exact Hw | apply wrote_sendError]].
    split; reflexivity.
Qed.

Lemma handleToolsCall_answers req s :
  exists resp, answers req resp /\ wrote resp s (handleToolsCall req s).
Proof.
  unfold handleToolsCall.
  destruct (Unmarshal CallParams.names CallParams.set (JSONRPCRequest.Params req)
                      CallParams.zero) as [params ok].
  destruct ok; simpl.
  - destruct (String.eqb (CallParams.Name params) "memorypilot_recall");
      [apply handleRecall_answers |].
    destruct (String.eqb (CallParams.Name params) "memorypilot_remember");
      [apply handleRemember_answers |].
    destruct (String.eqb (CallParams.Name params) "memorypilot_status");
      [apply handleStatus_answers |].
    eexists; split; [| apply wrote_sendError]. split; reflexivity.
  - eexists; split; [| apply wrote_sendError]. split; reflexivity.
Qed.

Lemma handleRequest_answers req s :
  exists resp, answers req resp /\ wrote resp s (handleRequest req s).
Proof.
  unfold handleRequest.
  destruct (String.eqb (JSONRPCRequest.Method req) "initialize").
  { eexists; split; [| apply wrote_sendResult]. split; reflexivity. }
  destruct (String.eqb (JSONRPCRequest.Method req) "tools/list").
  { eexists; split; [| apply wrote_sendResult]. split; reflexivity. }
  destruct (String.eqb (JSONRPCRequest.Method req) "tools/call").
  { apply handleToolsCall_answers. }
  eexists; split; [| apply wrote_sendError]. split; reflexivity.
Qed.

Lemma intoAny_goValue (v : json) (cur x : any) :
  intoAny v cur = (x, true) -> goValue v = Some x.
Proof.
  unfold goValue, intoAny. intros H.
  destruct v; try (rewrite H; reflexivity).
  destruct (float64Literal lit); [| discriminate].
  injection H as <-. reflexivity.
Qed.

Lemma decodeRequest_id (members : list (string * json)) req :
  decodeRequest (Text (JObject members)) = (req, true) ->
  JSONRPCRequest.ID req
  = orZero JNull (lastOf JSONRPCRequest.names "id" goValue members).
Proof.
  unfold decodeRequest, Unmarshal. intros H.
  apply (object_field_ok JSONRPCRequest.ID JSONRPCRequest.names
           JSONRPCRequest.set "id" goValue) in H; [exact H |].
  intros f v p. unfold JSONRPCRequest.set.
  set_cases f; try reflexivity; try (destruct v; reflexivity).
  destruct (intoAny v (JSONRPCRequest.ID p)) as [x ok] eqn:Hx.
  cbn [fst snd]. intros ->.
  now rewrite (intoAny_goValue v _ x Hx).
Qed.


(** ** Recall: which search runs *)

Lemma recallSearch_vector params s v w :
  Embed (RecallParams.Query params) (world s) = (EmbedVector v, w) ->
  recallSearch params s =
  (let r := HybridSearch (RecallParams.Query params) v (RecallParams.Limit params)
                         (store s) in
   (fst r, mkServer (snd r) w (writer s))).
Proof.
  intros He. unfold recallSearch, onWorld. rewrite He.
  unfold onStore. simpl.
  now destruct (HybridSearch _ _ _ _).
Qed.

Lemma recallSearch_no_vector params s emb w :
  Embed (RecallParams.Query params) (world s) = (emb, w) ->
  emb = EmbedError \/ emb = EmbedNil ->
  recallSearch params s =
  (let r := directRecall (RecallParams.Query params) (RecallParams.Limit params)
                         (store s) in
   (fst r, mkServer (snd r) w (writer s))).
Proof.
  intros He Hemb. unfold recallSearch, onWorld. rewrite He.
  unfold onStore, directRecall. simpl.
  destruct Hemb as [-> | ->]; now destruct (Recall _ _).
Qed.

(** C1.  For every recall request: when the embedding gateway returns no
    vector (an error, or a nil vector), the list the adapter answers with
    is the list that the keyword-only recall of the store returns when it
    is called directly with the query and the limit of the request (the
    limit after the default of the adapter), on the same store, and the
    whole effect of the handler is the reply built from that call; when
    the gateway returns a vector, the same holds of the hybrid search
    called with the query, that vector and the limit. *)
Theorem recall_falls_back_to_keyword_recall req args s emb w :
  let params := recallParams args in
  let query := RecallParams.Query params in
  let limit := RecallParams.Limit params in
  Embed query (world s) = (emb, w) ->
  (emb = EmbedError \/ emb = EmbedNil ->
     let direct := directRecall query limit (store s) in
     fst (recallSearch params s) = fst direct
     /\ handleRecall req args s =
        recallReply req params (fst direct) (mkServer (snd direct) w (writer s)))
  /\
  (forall v, emb = EmbedVector v ->
     let hybrid := HybridSearch query v limit (store s) in
     fst (recallSearch params s) = fst hybrid
     /\ handleRecall req args s =
        recallReply req params (fst hybrid) (mkServer (snd hybrid) w (writer s))).
Proof.
  intros params query limit He. split.
  - intros Hemb direct.
    pose proof (recallSearch_no_vector params s emb w He Hemb) as Hs.
    unfold handleRecall. fold params. rewrite Hs. split; reflexivity.
  - intros v -> hybrid.
    pose proof (recallSearch_vector params s v w He) as Hs.
    unfold handleRecall. fold params. rewrite Hs. split; reflexivity.
Qed.

(** ** Recall: the limit *)

Lemma recallParams_limit args :
  RecallParams.Limit (recallParams args) =
  if RecallParams.Limit (fst (decodedRecall args)) =? 0
  then 5 else RecallParams.Limit (fst (decodedRecall args)).
Proof.
  unfold recallParams, decodedRecall.
  now destruct (RecallParams.Limit _ =? 0).
Qed.

Lemma recallParams_query args :
  RecallParams.Query (recallParams args) = RecallParams.Query (fst (decodedRecall args)).
Proof.
  unfold recallParams, decodedRecall.
  now destruct (RecallParams.Limit _ =? 0).
Qed.

(** ** Remember: the memory built, and the embedding step *)

Lemma rememberSave_eq params s :
  rememberSave params s =
  (let now := fst (Now (world s)) in
   let w1 := snd (Now (world s)) in
   let id := fst (MakeULID w1) in
   let w2 := snd (MakeULID w1) in
   let r := CreateMemory (newMemory params now id) (store s) in
   (fst r, mkServer (snd r) w2 (writer s))).
Proof.
  unfold rememberSave, onWorld, onStore.
  destruct (Now (world s)) as [now w1]. simpl.
  destruct (MakeULID w1) as [id w2]. simpl.
  now destruct (CreateMemory _ _).
Qed.

(** C5.  For every remember request, the memory the handler builds and
    hands to the store carries the content of the request and a summary
    made from it, the one truncateStr returns for the content and the
    bound 100, where it cannot panic: a content of at most 100 bytes is its
    own summary; for a longer content the summary is exactly 100 bytes
    long and ends in the ellipsis marker, three dots, which follow the
    first 97 bytes of the content. *)
Theorem summary_truncation params s :
  exists (now : Time) (id : string) (s2 : Server St X),
    let memory := newMemory params now id in
    let content := RememberParams.Content params in
    rememberSave params s = onStore (CreateMemory memory) s2
    /\ Memory.Content memory = content
    /\ truncateStr content 100 = Some (Memory.Summary memory)
    /\ (len content <= 100 -> Memory.Summary memory = content)
    /\ (100 < len content ->
          Memory.Summary memory = substring 0 97 content ++ "..."
          /\ len (Memory.Summary memory) = 100).
Proof.
  exists (fst (Now (world s))), (fst (MakeULID (snd (Now (world s))))),
         (mkServer (store s) (snd (MakeULID (snd (Now (world s))))) (writer s)).
  cbv zeta. split; [| split; [reflexivity | split; [| split]]].
  - unfold rememberSave, onWorld.
    destruct (Now (world s)) as [now w1]. simpl.
    destruct (MakeULID w1) as [id w2]. reflexivity.
  - apply truncateStr_100.
  - intros H. cbn [newMemory Memory.Summary].
    pose proof (truncateStr_100 (RememberParams.Content params)) as Ht.
    unfold defaultSummaryLen in Ht. rewrite truncateStr_short in Ht by exact H.
    now injection Ht.
  - intros H. cbn [newMemory Memory.Summary].
    pose proof (truncateStr_100 (RememberParams.Content params)) as Ht.
    unfold defaultSummaryLen in Ht.
    rewrite truncateStr_long in Ht by (try exact H; lia).
    change (Z.to_nat (100 - 3)) with 97%nat in Ht.
    injection Ht as <-. split; [reflexivity |].
    pose proof (truncateStr_long_len (RememberParams.Content params) 100
                  ltac:(lia) H) as Hl.
    exact Hl.
Qed.

(** C10.  Every memory the remember operation builds and hands to the
    store has, at creation: confidence 1.0, importance 1.0, access count
    0, scope personal, source of type manual with reference mcp, and its
    creation time, its last access time and the timestamp of its source
    all equal to one and the same reading of the clock. *)
Theorem remembered_memory_fields params s :
  exists (now : Time) (id : string) (s2 : Server St X),
    let memory := newMemory params now id in
    rememberSave params s = onStore (CreateMemory memory) s2
    /\ now = fst (Now (world s))
    /\ Memory.Confidence memory = 1%float
    /\ Memory.Importance memory = 1%float
    /\ Memory.AccessCount memory = 0
    /\ Memory.Scope memory = MemoryScopePersonal
    /\ Source.Type_ (Memory.Source memory) = SourceTypeManual
    /\ Source.Reference (Memory.Source memory) = "mcp"
    /\ Memory.CreatedAt memory = now
    /\ Memory.LastAccessedAt memory = now
    /\ Source.Timestamp (Memory.Source memory) = now.
Proof.
  exists (fst (Now (world s))), (fst (MakeULID (snd (Now (world s))))),
         (mkServer (store s) (snd (MakeULID (snd (Now (world s))))) (writer s)).
  cbv zeta. split; [| repeat split].
  unfold rememberSave, onWorld.
  destruct (Now (world s)) as [now w1]. simpl.
  destruct (MakeULID w1) as [id w2]. reflexivity.
Qed.

Lemma embedMemory_no_vector memory s emb w :
  Embed (Memory.Content memory) (world s) = (emb, w) ->
  emb = EmbedError \/ emb = EmbedNil ->
  embedMemory memory s = mkServer (store s) w (writer s).
Proof.
  intros He Hemb. unfold embedMemory, onWorld. rewrite He.
  destruct Hemb as [-> | ->]; reflexivity.
Qed.

(** C6.  For every remember request whose write the store accepted, if the
    embedding step then fails (the gateway returns an error or a nil
    vector), the handler still sends the success response, to the
    identifier of the request, and leaves the store exactly as the
    accepted write left it: nothing is rolled back and no other store
    operation runs. *)
Theorem remember_survives_embedding_failure req args s memory s1 emb w :
  let params := rememberParams args in
  rememberSave params s = (None, memory, s1) ->
  Embed (Memory.Content memory) (world s1) = (emb, w) ->
  emb = EmbedError \/ emb = EmbedNil ->
  handleRemember req args s =
    sendResult (JSONRPCRequest.ID req) (textContent (rememberText params memory))
               (mkServer (store s1) w (writer s))
  /\ store (handleRemember req args s) = store s1
  /\ wrote (success (JSONRPCRequest.ID req) (textContent (rememberText params memory)))
           s (handleRemember req args s).
Proof.
  intros params Hsave He Hemb.
  assert (Hh : handleRemember req args s =
    sendResult (JSONRPCRequest.ID req) (textContent (rememberText params memory))
               (mkServer (store s1) w (writer s))).
  { unfold handleRemember. fold params. rewrite Hsave. simpl.
    rewrite (embedMemory_no_vector memory s1 emb w He Hemb).
    pose proof (writer_rememberSave params s) as Hw. rewrite Hsave in Hw.
    simpl in Hw. now rewrite Hw. }
  rewrite Hh. repeat split.
Qed.

(** ** The main loop *)

Lemma loop_parse_error line rest s :
  snd (decodeRequest line) = false ->
  loop (ReadLine line :: rest) s =
  loop rest (sendError JNull (-32700) "Parse error" s).
Proof.
  intros H. simpl. destruct (decodeRequest line) as [req ok].
  simpl in H. now subst ok.
Qed.

Lemma loop_request line req rest s :
  decodeRequest line = (req, true) ->
  loop (ReadLine line :: rest) s = loop rest (handleRequest req s).
Proof. intros H. simpl. now rewrite H. Qed.

(** Without a read error the loop ends with the stream, returns no error
    and has answered every line, decodable or not. *)
Lemma loop_onlyLines reader : forall s,
  onlyLines reader ->
  fst (loop reader s) = None
  /\ List.length (writer (snd (loop reader s)))
     = (List.length (writer s) + List.length reader)%nat.
Proof.
  induction reader as [|r rest IH]; intros s Hlines.
  - simpl. split; [reflexivity | lia].
  - assert (Hrest : onlyLines rest) by (intros x Hx; apply Hlines; now right).
    destruct (Hlines r (or_introl eq_refl)) as [line ->].
    simpl. destruct (decodeRequest line) as [req ok].
    destruct ok; simpl.
    + destruct (IH (handleRequest req s) Hrest) as [H1 H2].
      split; [exact H1 |]. rewrite H2.
      destruct (handleRequest_answers req s) as (resp & _ & Hw).
      rewrite Hw, length_app. simpl. lia.
    + destruct (IH (sendError JNull (-32700) "Parse error" s) Hrest) as [H1 H2].
      split; [exact H1 |]. rewrite H2. simpl. rewrite length_app. simpl. lia.
Qed.

(** C7.  For every input line that fails to decode as a request, the loop
    writes one error response with code -32700 and goes on with the rest
    of the input from there: a decodable line that follows is handled as
    usual, and if no read fails the loop ends only at the end of the
    stream, without an error, having answered every line. *)
Theorem malformed_line_does_not_stop_loop line rest s :
  snd (decodeRequest line) = false ->
  let s1 := sendError JNull (-32700) "Parse error" s in
  loop (ReadLine line :: rest) s = loop rest s1
  /\ wrote (failure JNull (-32700) "Parse error") s s1
  /\ errorCode (failure JNull (-32700) "Parse error") = Some (-32700)
  /\ (forall next req rest',
        rest = ReadLine next :: rest' -> decodeRequest next = (req, true) ->
        loop (ReadLine line :: rest) s = loop rest' (handleRequest req s1))
  /\ (onlyLines rest ->
        fst (loop (ReadLine line :: rest) s) = None
        /\ List.length (writer (snd (loop (ReadLine line :: rest) s)))
           = (List.length (writer s) + 1 + List.length rest)%nat).
Proof.
  intros Hbad s1.
  pose proof (loop_parse_error line rest s Hbad) as Hstep. fold s1 in Hstep.
  split; [exact Hstep |].
  split; [reflexivity |].
  split; [reflexivity |].
  split.
  - intros next req rest' -> Hnext.
    rewrite Hstep. now apply loop_request.
  - intros Hlines. rewrite Hstep.
    destruct (loop_onlyLines rest s1 Hlines) as [H1 H2].
    split; [exact H1 |]. rewrite H2. unfold s1. simpl.
    rewrite length_app. simpl. lia.
Qed.

End Handlers.

(** ** The arguments of a tool call *)

Section Arguments.

Context {St E X : Type} {E_error : error E} {db : StoreAPI St E} {rt : Runtime X}.

Implicit Types (s : Server St X) (req : JSONRPCRequest.t).

Lemma recallSearch_cases params s :
  (exists v,
      fst (recallSearch params s)
      = fst (HybridSearch (RecallParams.Query params) v (RecallParams.Limit params)
                          (store s)))
  \/ fst (recallSearch params s)
     = fst (directRecall (RecallParams.Query params) (RecallParams.Limit params)
                         (store s)).
Proof.
  destruct (Embed (RecallParams.Query params) (world s)) as [emb w] eqn:He.
  destruct emb as [| |v].
  - right. rewrite (recallSearch_no_vector params s _ w He); auto.
  - right. rewrite (recallSearch_no_vector params s _ w He); auto.
  - left. exists v. now rewrite (recallSearch_vector params s v w He).
Qed.

(** X22.  The limit the adapter hands to the store.  For every recall
    request it is 5 when the supplied limit is zero or unspecified (no
    member of the arguments gives the limit an integer, which leaves it
    zero), and is the supplied limit itself in every other case, a
    negative one included: the adapter leaves it to the store to default
    a negative limit. *)
Theorem recall_limit_default_is_for_zero args s :
  let supplied := RecallParams.Limit (fst (decodedRecall args)) in
  let params := recallParams args in
  let effective := if supplied =? 0 then 5 else supplied in
  RecallParams.Limit params = effective
  /\ supplied =
     orZero 0 match args with
              | Some (JObject members) =>
                  lastOf RecallParams.names "limit" readInt members
              | _ => None
              end
  /\ ((exists v,
         fst (recallSearch params s)
         = fst (HybridSearch (RecallParams.Query params) v effective (store s)))
      \/ fst (recallSearch params s)
         = fst (directRecall (RecallParams.Query params) effective (store s))).
Proof.
  cbv zeta. split; [apply recallParams_limit |]. split.
  - rewrite decodedRecall_fields. destruct args as [[]|]; reflexivity.
  - rewrite <- recallParams_limit. apply recallSearch_cases.
Qed.

Ltac reply_with Hwrote :=
  eexists; refine (conj _ (conj _ _)); cycle 1;
  [ Hwrote | (left; reflexivity) || (right; reflexivity) | split; reflexivity ].

Lemma handleRecall_codes req args s :
  exists resp,
    answers req resp /\ wrote resp s (handleRecall req args s)
    /\ (errorCode resp = None \/ errorCode resp = Some (-32000)).
Proof.
  unfold handleRecall.
  pose proof (writer_recallSearch (recallParams args) s) as Hw.
  destruct (recallSearch (recallParams args) s) as [found s1]. simpl in Hw.
  destruct found as [memories|err]; simpl.
  - reply_with ltac:(eapply wrote_after; [exact Hw | apply wrote_sendResult]).
  - reply_with ltac:(eapply wrote_after; [exact Hw | apply wrote_sendError]).
Qed.

Lemma handleRemember_codes req args s :
  exists resp,
    answers req resp /\ wrote resp s (handleRemember req args s)
    /\ (errorCode resp = None \/ errorCode resp = Some (-32000)).
Proof.
  unfold handleRemember.
  pose proof (writer_rememberSave (rememberParams args) s) as Hw.
  destruct (rememberSave (rememberParams args) s) as [[err memory] s1].
  simpl in Hw.
  destruct err as [err|]; simpl.
  - reply_with ltac:(eapply wrote_after; [exact Hw | apply wrote_sendError]).
  - reply_with ltac:(eapply wrote_after;
                     [| apply wrote_sendResult]; now rewrite writer_embedMemory).
Qed.

Lemma handleToolsCall_recall req s args :
  Unmarshal CallParams.names CallParams.set (JSONRPCRequest.Params req)
            CallParams.zero = (CallParams.mk "memorypilot_recall" args, true) ->
  handleToolsCall req s = handleRecall req args s.
Proof. intros H. unfold handleToolsCall. now rewrite H. Qed.

Lemma handleToolsCall_remember req s args :
  Unmarshal CallParams.names CallParams.set (JSONRPCRequest.Params req)
            CallParams.zero = (CallParams.mk "memorypilot_remember" args, true) ->
  handleToolsCall req s = handleRemember req args s.
Proof. intros H. unfold handleToolsCall. now rewrite H. Qed.

Lemma not_invalid_params (resp : JSONRPCResponse.t) :
  errorCode resp = None \/ errorCode resp = Some (-32000) ->
  errorCode resp <> Some (-32602).
Proof. intros [H|H]; rewrite H; discriminate. Qed.

(** C9, as the code has it.  For every tools/call invocation of recall or
    of remember, whether or not the arguments decode, the adapter does not
    answer with the invalid-params code -32602: the error of the decoder is
    ignored and the operation runs, to a success or to a store error.  It
    runs with the arguments as the decoder left them: every field is zero
    when the arguments are absent or not an object; in an object the
    query, the limit, the semantic flag, the content and the type each
    hold what the last member that suits the field gives, and are zero
    only if no member does; the topics are empty if no member gives them
    an array or null, and otherwise are as many as the items of the last
    such member, every item that is a string standing at its place.
    After that a zero limit is 5 and an empty type is fact. *)
Theorem undecodable_arguments_are_ignored req s name args :
  Unmarshal CallParams.names CallParams.set (JSONRPCRequest.Params req)
            CallParams.zero = (CallParams.mk name args, true) ->
  (name = "memorypilot_recall" ->
     handleToolsCall req s = handleRecall req args s
     /\ (exists resp,
           answers req resp /\ wrote resp s (handleToolsCall req s)
           /\ errorCode resp <> Some (-32602))
     /\ recallParams args =
        (let d := match args with
                  | Some (JObject members) => lastRecall members
                  | _ => RecallParams.zero
                  end in
         if RecallParams.Limit d =? 0
         then RecallParams.mk (RecallParams.Query d) 5 (RecallParams.Semantic d)
         else d))
  /\
  (name = "memorypilot_remember" ->
     handleToolsCall req s = handleRemember req args s
     /\ (exists resp,
           answers req resp /\ wrote resp s (handleToolsCall req s)
           /\ errorCode resp <> Some (-32602))
     /\ (let d := fst (decodedRemember args) in
         match args with
         | Some (JObject members) => rememberFields members d
         | _ => d = RememberParams.zero
         end
         /\ rememberParams args =
            (if String.eqb (RememberParams.Type_ d) ""
             then RememberParams.mk (RememberParams.Content d) "fact"
                                    (RememberParams.Topics d)
             else d))).
Proof.
  intros Hcall. split; intros ->.
  - pose proof (handleToolsCall_recall req s args Hcall) as Hh.
    split; [exact Hh |]. split.
    + destruct (handleRecall_codes req args s) as (resp & Ha & Hw & Hc).
      exists resp. rewrite Hh. auto using not_invalid_params.
    + pose proof (decodedRecall_fields args) as Hd.
      unfold recallParams. unfold decodedRecall in Hd. now rewrite Hd.
  - pose proof (handleToolsCall_remember req s args Hcall) as Hh.
    split; [exact Hh |]. split.
    + destruct (handleRemember_codes req args s) as (resp & Ha & Hw & Hc).
      exists resp. rewrite Hh. auto using not_invalid_params.
    + cbv zeta. split; [apply decodedRemember_fields | reflexivity].
Qed.

End Arguments.

(** ** The adapter over the store of the specification *)

Section OverSpecStore.

Import SpecStore.

Context {X : Type} {rt : Runtime X}.

Variable rank :
  string -> option Embedding -> list Memory.t -> list (string * Embedding)
  -> list Memory.t.

Implicit Types (s : Server State X) (req : JSONRPCRequest.t).

Lemma validType_In (t : MemoryType) : validType t = true <-> In t memoryTypes.
Proof.
  unfold validType. rewrite existsb_exists. split.
  - intros (x & Hin & Heq). apply String.eqb_eq in Heq. now subst.
  - intros Hin. exists t. split; [exact Hin | apply String.eqb_refl].
Qed.

Lemma create_rejected (m : Memory.t) (st : State) :
  Memory.Content m = "" \/ ~ In (Memory.Type_ m) memoryTypes ->
  create m st = (Some ValidationError, m, st).
Proof.
  intros H. unfold create.
  destruct (String.eqb_spec (Memory.Content m) "") as [Hc|Hc]; [reflexivity |].
  destruct (validType (Memory.Type_ m)) eqn:Hv; [| reflexivity].
  apply validType_In in Hv. destruct H; contradiction.
Qed.

Lemma create_accepted (m : Memory.t) (st : State) :
  Memory.Content m <> "" -> In (Memory.Type_ m) memoryTypes ->
  create m st = (None, m, mkState (records st ++ [m]) (vectors st) (clock st)).
Proof.
  intros Hc Ht. unfold create.
  destruct (String.eqb_spec (Memory.Content m) "") as [Hc'|_]; [contradiction |].
  apply validType_In in Ht. now rewrite Ht.
Qed.

Lemma embedMemory_records (memory : Memory.t) s :
  records (store (embedMemory (db := api rank) memory s)) = records (store s).
Proof.
  unfold embedMemory, onWorld.
  destruct (Embed (Memory.Content memory) (world s)) as [emb w].
  destruct emb; try reflexivity.
  unfold onStore. simpl. unfold updateEmbedding.
  now destruct (known (Memory.ID memory) (store s)).
Qed.

(** C3, as the code has it.  For every remember request, with the type
    taken after the default of the adapter (an empty or absent type is
    fact): if the content is empty or the type is not one of decision,
    pattern, fact, preference, mistake, learning, the write fails with a
    ValidationError, reported as a protocol error of code -32000, and the
    store is unchanged; in every other case the record is appended to the
    store and the success response names its identifier. *)
Theorem remember_validates_content_and_type req args s :
  let raw := fst (decodedRemember args) in
  let params := rememberParams args in
  let now := fst (Now (world s)) in
  let id := fst (MakeULID (snd (Now (world s)))) in
  let memory := newMemory params now id in
  let s' := handleRemember (db := api rank) req args s in
  RememberParams.Type_ params =
    (if String.eqb (RememberParams.Type_ raw) "" then "fact"
     else RememberParams.Type_ raw)
  /\ RememberParams.Content params = RememberParams.Content raw
  /\ (RememberParams.Content params = ""
      \/ ~ In (RememberParams.Type_ params) memoryTypes ->
        store s' = store s
        /\ wrote (failure (JSONRPCRequest.ID req) (-32000)
                          ("Failed to save memory: " ++ Error ValidationError))
                 s s')
  /\ (RememberParams.Content params <> "" ->
      In (RememberParams.Type_ params) memoryTypes ->
        records (store s') = (records (store s) ++ [memory])%list
        /\ Memory.ID memory = id
        /\ wrote (success (JSONRPCRequest.ID req)
                          (textContent (rememberText params memory)))
                 s s').
Proof.
  intros raw params now id memory s'.
  split; [| split; [| split]].
  - unfold params, raw, rememberParams, decodedRemember.
    now destruct (String.eqb _ "").
  - unfold params, raw, rememberParams, decodedRemember.
    now destruct (String.eqb _ "").
  - intros Hbad. unfold s', handleRemember. fold params.
    rewrite rememberSave_eq. cbv zeta. fold now id memory.
    change (CreateMemory memory (store s)) with (create memory (store s)).
    rewrite create_rejected by exact Hbad. simpl.
    split; [now destruct s | reflexivity].
  - intros Hc Ht. unfold s', handleRemember. fold params.
    rewrite rememberSave_eq. cbv zeta. fold now id memory.
    change (CreateMemory memory (store s)) with (create memory (store s)).
    rewrite create_accepted by assumption. simpl.
    split; [| split; [reflexivity |]].
    + now rewrite embedMemory_records.
    + unfold wrote. simpl. now rewrite writer_embedMemory.
Qed.

Lemma effectiveLimit_after_default (supplied : Z) :
  effectiveLimit (if supplied =? 0 then 5 else supplied)
  = if supplied <=? 0 then 5 else supplied.
Proof.
  unfold effectiveLimit.
  destruct (Z.eqb_spec supplied 0) as [->|Hz]; [reflexivity |].
  reflexivity.
Qed.

(** C4.  Over the store of the specification: for every recall request
    whose query is not empty, the list the adapter reports is the ranked
    candidates truncated to the effective limit, which is the default 5
    when the supplied limit is unspecified (no member of the arguments
    gives it an integer, which leaves it zero), zero or negative, and is
    the supplied limit when that is positive. *)
Theorem recall_limit_defaults_to_five req args s :
  let supplied := RecallParams.Limit (fst (decodedRecall args)) in
  let params := recallParams args in
  let query := RecallParams.Query params in
  let effective := if supplied <=? 0 then 5 else supplied in
  let queryVector :=
    match fst (Embed query (world s)) with
    | EmbedVector v => Some v
    | _ => None
    end in
  let ranked := rank query queryVector (records (store s)) (vectors (store s)) in
  let s' := handleRecall (db := api rank) req args s in
  supplied =
    orZero 0 match args with
             | Some (JObject members) =>
                 lastOf RecallParams.names "limit" readInt members
             | _ => None
             end
  /\ (query <> "" ->
        fst (recallSearch (db := api rank) params s)
        = Ok (firstn (Z.to_nat effective) ranked)
        /\ wrote (success (JSONRPCRequest.ID req)
                          (textContent
                             (recallText query (firstn (Z.to_nat effective) ranked))))
                 s s'
        /\ (supplied <= 0 ->
              firstn (Z.to_nat effective) ranked = firstn 5 ranked)).
Proof.
  intros supplied params query effective queryVector ranked s'.
  split.
  { unfold supplied. rewrite decodedRecall_fields.
    destruct args as [[]|]; reflexivity. }
  intros Hq. apply String.eqb_neq in Hq.
  assert (Hl : effectiveLimit (RecallParams.Limit params) = effective).
  { unfold params. rewrite recallParams_limit. fold supplied.
    apply effectiveLimit_after_default. }
  assert (Hlast : supplied <= 0 ->
                  firstn (Z.to_nat effective) ranked = firstn 5 ranked).
  { intros Hs. unfold effective.
    destruct (Z.leb_spec supplied 0); [reflexivity | lia]. }
  unfold s', handleRecall. fold params.
  unfold ranked, queryVector, recallSearch, onWorld. fold query.
  destruct (Embed query (world s)) as [emb w].
  destruct emb; unfold onStore; cbn [fst snd HybridSearch Recall api
    RecallRequest.Query RecallRequest.Limit];
    unfold search; fold query; rewrite Hq, Hl; cbn [fst snd recallReply];
    (split; [reflexivity | split; [reflexivity | exact Hlast]]).
Qed.

(** C8.  Over the store of the specification: for every recall request
    whose query is empty the search fails with InvalidQueryError, which
    the adapter reports as a protocol error of code -32000, the store
    unchanged; every other recall request is answered with a success,
    whatever its limit and its other arguments, and the list it reports
    is no longer than the limit, 5 standing for a limit that is not
    positive. *)
Theorem recall_rejects_only_empty_query req args s :
  let params := recallParams args in
  let s' := handleRecall (db := api rank) req args s in
  (RecallParams.Query params = "" ->
     store s' = store s
     /\ wrote (failure (JSONRPCRequest.ID req) (-32000) (Error InvalidQueryError))
              s s')
  /\
  (RecallParams.Query params <> "" ->
     exists memories : list Memory.t,
       wrote (success (JSONRPCRequest.ID req)
                      (textContent (recallText (RecallParams.Query params) memories)))
             s s'
       /\ Z.of_nat (List.length memories)
          <= effectiveLimit (RecallParams.Limit params)).
Proof.
  intros params s'. unfold s', handleRecall. fold params.
  unfold recallSearch, onWorld.
  destruct (Embed (RecallParams.Query params) (world s)) as [emb w].
  assert (Hlen : forall qv,
    Z.of_nat (List.length
      (firstn (Z.to_nat (effectiveLimit (RecallParams.Limit params)))
              (rank (RecallParams.Query params) qv (records (store s))
                    (vectors (store s)))))
    <= effectiveLimit (RecallParams.Limit params)).
  { intros qv.
    pose proof (firstn_le_length
                  (Z.to_nat (effectiveLimit (RecallParams.Limit params)))
                  (rank (RecallParams.Query params) qv (records (store s))
                        (vectors (store s)))) as Hle.
    assert (0 <= effectiveLimit (RecallParams.Limit params)).
    { unfold effectiveLimit. destruct (Z.leb_spec (RecallParams.Limit params) 0); lia. }
    lia. }
  split.
  - intros Hq.
    destruct emb; unfold onStore; simpl; unfold search; rewrite Hq; simpl;
      (split; [now destruct s | reflexivity]).
  - intros Hq. apply String.eqb_neq in Hq.
    destruct emb; unfold onStore; simpl; unfold search; rewrite Hq; simpl;
      (eexists; split; [reflexivity | apply Hlen]).
Qed.

End OverSpecStore.

(* ================================================================== *)
(** * The statements on concrete requests *)

Module Runs.
Import Probe ProbeRuns.

#[local] Existing Instance strconv.

(** C1 on a request for caching with limit 5 while the gateway is down:
    the store receives one keyword recall, with that query and limit. *)
Lemma recall_falls_back_to_keyword_recall_witness :
  let req := request (JNumber "1") "memorypilot_recall"
                     (recallArgs (JString "caching") (JNumber "5")) in
  let args := Some (recallArgs (JString "caching") (JNumber "5")) in
  Embed (Runtime := runtime) "caching" world0 = (EmbedError, world0)
  /\ fst (recallSearch (db := api) (rt := runtime) (recallParams args) s0)
     = fst (directRecall (db := api) "caching" 5 [])
  /\ store (handleRecall (db := api) (rt := runtime) req args s0)
     = [CallRecall (RecallRequest.mk "caching" 5)].
Proof.
  intros req args.
  pose proof (recall_falls_back_to_keyword_recall
                (db := api) (rt := runtime) req args s0 EmbedError world0 eq_refl)
    as [Hfallback _].
  destruct (Hfallback (or_introl eq_refl)) as [Hlist Hall].
  split; [reflexivity |]. split; [exact Hlist |].
  rewrite Hall. reflexivity.
Defined.

(** C6 on a remember request while the gateway is down: the write is the
    only call the store receives, and the success is sent. *)
Lemma remember_survives_embedding_failure_witness :
  let req := request (JNumber "2") "memorypilot_remember"
                     (rememberArgs (JString "Use Redis for caching")
                                   (JString "decision")) in
  let args := Some (rememberArgs (JString "Use Redis for caching")
                                 (JString "decision")) in
  let saved := rememberSave (db := api) (rt := runtime) (rememberParams args) s0 in
  fst (fst saved) = None
  /\ store (handleRemember (db := api) (rt := runtime) req args s0)
     = store (snd saved)
  /\ List.length (writer (handleRemember (db := api) (rt := runtime) req args s0))
     = 1%nat.
Proof.
  intros req args saved.
  pose proof (remember_survives_embedding_failure
                (db := api) (rt := runtime) req args s0
                (snd (fst saved)) (snd saved) EmbedError
                (world (snd saved)) eq_refl eq_refl (or_introl eq_refl))
    as (Hall & Hstore & Hwrote).
  split; [reflexivity |]. split; [exact Hstore |].
  rewrite Hwrote. reflexivity.
Defined.

(** C7 on a malformed line followed by an initialize request: two lines
    are written after the greeting, the parse error and the result, and
    Run returns no error. *)
Lemma malformed_line_does_not_stop_loop_witness :
  snd (decodeRequest badLine) = false
  /\ loop (db := api) (rt := runtime)
          [ReadLine badLine; ReadLine initializeLine] s0
     = (None,
        handleRequest (db := api) (rt := runtime) initializeRequest
          (sendError JNull (-32700) "Parse error" s0)).
Proof.
  split; [reflexivity |].
  pose proof (malformed_line_does_not_stop_loop
                (db := api) (rt := runtime) badLine [ReadLine initializeLine] s0
                eq_refl) as (_ & _ & _ & Hnext & _).
  rewrite (Hnext initializeLine initializeRequest [] eq_refl eq_refl).
  reflexivity.
Defined.

(** X22 on a negative limit: the limit -1 is not positive, and the store
    is asked for -1 memories, not for 5. *)
Lemma negative_limit_is_not_defaulted :
  let args := Some (recallArgs (JString "caching") (JNumber "-1")) in
  let req := request (JNumber "3") "memorypilot_recall"
                     (recallArgs (JString "caching") (JNumber "-1")) in
  RecallParams.Limit (fst (decodedRecall args)) <= 0
  /\ RecallParams.Limit (recallParams args) <> 5
  /\ store (run req world0) = [CallRecall (RecallRequest.mk "caching" (-1))].
Proof.
  cbv zeta. split; [vm_compute; discriminate |].
  split; [vm_compute; discriminate | reflexivity].
Defined.

(** C4 on the query caching with the limit -1, over a store of seven
    records that all match: five are reported. *)
Lemma recall_limit_defaults_to_five_witness :
  let args := Some (recallArgs (JString "caching") (JNumber "-1")) in
  let s := mkServer (SpecStore.mkState sevenRecords [] 0) world0 [] in
  RecallParams.Limit (fst (decodedRecall args)) = -1
  /\ fst (recallSearch (db := SpecStore.api bySubstring) (rt := runtime)
                       (recallParams args) s)
     = Ok (firstn 5 sevenRecords).
Proof.
  intros args s.
  pose proof (recall_limit_defaults_to_five
                (rt := runtime) bySubstring initializeRequest args s)
    as [Hsupplied Hlist].
  split; [reflexivity |].
  destruct Hlist as (Hfound & _ & _); [vm_compute; discriminate |].
  rewrite Hfound. reflexivity.
Defined.

(** C5 on a content of 118 bytes: the memory handed to the store has a
    summary of 100 bytes, the first 97 of the content and three dots. *)
Lemma summary_truncation_witness :
  let params := RememberParams.mk long_content "fact" [] in
  100 < len long_content
  /\ exists (now : Time) (id : string) (s2 : Server (list Call) World),
       let memory := newMemory params now id in
       rememberSave (db := api) (rt := runtime) params s0
       = onStore (CreateMemory (StoreAPI := api) memory) s2
       /\ Memory.Summary memory = substring 0 97 long_content ++ "..."
       /\ len (Memory.Summary memory) = 100.
Proof.
  intros params.
  destruct (summary_truncation (db := api) (rt := runtime) params s0)
    as (now & id & s2 & Hsave & _ & _ & _ & Hlong).
  split; [reflexivity |].
  exists now, id, s2. cbv zeta. split; [exact Hsave |].
  apply Hlong. reflexivity.
Defined.



(** C9 fails for arguments that decode in part: the limit is a string, so
    the decoder reports an error, and yet the query is not the zero value
    and the store is searched for it. *)
Lemma undecodable_arguments_keep_their_good_fields :
  let args := Some (recallArgs (JString "redis") (JString "ten")) in
  let req := request (JNumber "4") "memorypilot_recall"
                     (recallArgs (JString "redis") (JString "ten")) in
  snd (decodedRecall args) = false
  /\ RecallParams.Query (recallParams args) <> ""
  /\ store (run req world0) = [CallRecall (RecallRequest.mk "redis" 5)].
Proof.
  cbv zeta. split; [reflexivity |].
  split; [vm_compute; discriminate | reflexivity].
Defined.

(** C9 on the same arguments: no invalid-params answer, and the fields
    the decoder leaves. *)
Lemma undecodable_arguments_are_ignored_witness :
  let args := Some (recallArgs (JString "redis") (JString "ten")) in
  let req := request (JNumber "4") "memorypilot_recall"
                     (recallArgs (JString "redis") (JString "ten")) in
  snd (decodedRecall args) = false
  /\ (exists resp,
        answers req resp
        /\ wrote resp s0 (handleToolsCall (db := api) (rt := runtime) req s0)
        /\ errorCode resp <> Some (-32602))
  /\ recallParams args = RecallParams.mk "redis" 5 false.
Proof.
  intros args req.
  pose proof (undecodable_arguments_are_ignored
                (db := api) (rt := runtime) req s0 "memorypilot_recall" args eq_refl)
    as [Hrecall _].
  destruct (Hrecall eq_refl) as (_ & Hcode & Hfields).
  split; [reflexivity |]. split; [exact Hcode |].
  rewrite Hfields. reflexivity.
Defined.

(** The decoder on two members of remember that are decoded into the
    topics: the second array is decoded over the strings of the first,
    so that null and the number 7, which give the topics nothing, leave
    the first two strings of the first array in place.  The number is an
    error of the decoder, which remember ignores. *)
Example repeated_topics_are_decoded_over_the_old_ones :
  let args :=
    Some (JObject [("content", JString "Use Redis");
                   ("topics", strings ["a"; "b"; "c"]);
                   ("topics", JArray [JNull; JNumber "7"])]) in
  snd (decodedRemember args) = false
  /\ rememberParams args = RememberParams.mk "Use Redis" "fact" ["a"; "b"].
Proof. split; reflexivity. Qed.

(** A member is decoded into the field of its name up to case folding,
    under which the long s (U+017F) is an s and the Kelvin sign (U+212A)
    a k. *)
Example member_names_are_folded :
  fieldFor RememberParams.names "Topicſ" = Some "topics"
  /\ fieldFor RememberParams.names "TYPE" = Some "type"
  /\ fieldFor RememberParams.names "topic" = None.
Proof. repeat split; reflexivity. Qed.

(** C3 fails for an empty type: it is not one of the six types, and the
    memory is stored, as a fact, and the success is sent. *)
Lemma empty_type_is_remembered_as_fact :
  let args := rememberArgs (JString "Use Redis for caching") (JString "") in
  let s' := specRun (request (JNumber "5") "memorypilot_remember" args) in
  ~ In (RememberParams.Type_ (fst (decodedRemember (Some args))))
       SpecStore.memoryTypes
  /\ map Memory.Type_ (SpecStore.records (store s')) = ["fact"]
  /\ map lineID (writer s') = [JNumber "5"]
  /\ map (lineMember "error") (writer s') = [None].
Proof.
  cbv zeta. split.
  - vm_compute. intuition discriminate.
  - repeat split; reflexivity.
Defined.

(** C3 on a decision, which is stored, and on a type outside the
    enumeration, which is refused. *)
Lemma remember_validates_content_and_type_witness :
  let good := Some (rememberArgs (JString "Use Redis for caching")
                                 (JString "decision")) in
  let bad := Some (rememberArgs (JString "Use Redis for caching")
                                (JString "hunch")) in
  let req := initializeRequest in
  (map Memory.ID
       (SpecStore.records
          (store (handleRemember (db := SpecStore.api bySubstring) (rt := runtime)
                                 req good spec0)))
   = ["01J0000000000000000000000A"])
  /\ store (handleRemember (db := SpecStore.api bySubstring) (rt := runtime)
                           req bad spec0) = store spec0.
Proof.
  intros good bad req.
  pose proof (remember_validates_content_and_type
                (rt := runtime) bySubstring req good spec0)
    as (_ & _ & _ & Hgood).
  pose proof (remember_validates_content_and_type
                (rt := runtime) bySubstring req bad spec0)
    as (_ & _ & Hbad & _).
  split.
  - destruct Hgood as (Hrecords & _ & _).
    + vm_compute; discriminate.
    + vm_compute; auto.
    + rewrite Hrecords. reflexivity.
  - destruct Hbad as (Hstore & _).
    + right. vm_compute. intuition discriminate.
    + exact Hstore.
Defined.

(** C8 on an empty query, which is refused, and on the query caching with
    a negative limit, which is answered. *)
Lemma recall_rejects_only_empty_query_witness :
  let empty := Some (recallArgs (JString "") (JNumber "5")) in
  let other := Some (recallArgs (JString "caching") (JNumber "-1")) in
  let req := initializeRequest in
  wrote (failure (JNumber "1") (-32000) "InvalidQueryError") spec0
        (handleRecall (db := SpecStore.api bySubstring) (rt := runtime)
                      req empty spec0)
  /\ exists memories,
       wrote (success (JNumber "1")
                      (textContent (recallText (rt := runtime) "caching" memories)))
             spec0
             (handleRecall (db := SpecStore.api bySubstring) (rt := runtime)
                           req other spec0).
Proof.
  intros empty other req.
  pose proof (recall_rejects_only_empty_query
                (rt := runtime) bySubstring req empty spec0) as [Hempty _].
  pose proof (recall_rejects_only_empty_query
                (rt := runtime) bySubstring req other spec0) as [_ Hother].
  split.
  - destruct Hempty as [_ Hw]; [reflexivity | exact Hw].
  - destruct Hother as (memories & Hw & _); [vm_compute; discriminate |].
    exists memories. exact Hw.
Defined.

End Runs.

(* ================================================================== *)
(** * Further properties of the adapter *)


(** ** Decimal literals: strconv.Itoa read back by strconv.ParseInt *)

Lemma digits_string_of_uint (d : Decimal.uint) : forall acc : Z,
  digits (NilEmpty.string_of_uint d) acc
  = Some (acc * 10 ^ Z.of_N (DecimalPos.Unsigned.usize d)
          + Z.of_N (DecimalPos.Unsigned.of_lu (Decimal.rev d))).
Proof.
  induction d; intros acc; simpl NilEmpty.string_of_uint;
    [simpl; f_equal; lia | ..];
    cbn [digits].
  all: unfold Decimal.rev at 1; cbn [Decimal.revapp];
    rewrite (DecimalPos.Unsigned.of_lu_revapp d);
    cbn [DecimalPos.Unsigned.usize DecimalPos.Unsigned.of_lu];
    match goal with
    | |- context [digit ?c] =>
        let v := eval vm_compute in (digit c) in change (digit c) with v
    end; cbv iota; rewrite IHd; f_equal;
    rewrite N2Z.inj_add, N2Z.inj_mul, N2Z.inj_pow, N2Z.inj_succ,
            Z.pow_succ_r by apply N2Z.is_nonneg;
    rewrite ?N.mul_0_r, ?N.add_0_r; simpl Z.of_N; ring.
Qed.

Lemma unsigned_to_uint (p : positive) :
  unsigned (NilEmpty.string_of_uint (Pos.to_uint p)) = Some (Z.pos p).
Proof.
  unfold unsigned.
  pose proof (DecimalPos.Unsigned.to_uint_nonnil p) as Hn.
  pose proof (digits_string_of_uint (Pos.to_uint p) 0) as Hd.
  rewrite <- DecimalPos.Unsigned.of_uint_alt, DecimalPos.Unsigned.of_to in Hd.
  simpl in Hd.
  destruct (Pos.to_uint p); try exact Hd. contradiction.
Qed.

Lemma ParseInt_Itoa (z : Z) :
  MinInt64 <= z <= MaxInt64 -> ParseInt (Itoa z) = Some z.
Proof.
  intros Hr.
  assert (Hin : (MinInt64 <=? z) && (z <=? MaxInt64) = true).
  { apply andb_true_iff. split; apply Z.leb_le; lia. }
  unfold ParseInt, Itoa.
  destruct z as [|p|p]; simpl Z.to_int; simpl NilEmpty.string_of_int.
  - reflexivity.
  - pose proof (unsigned_to_uint p) as Hu.
    destruct (Pos.to_uint p) eqn:Hp; simpl NilEmpty.string_of_uint in *;
      try (rewrite Hu; now rewrite Hin).
  - cbv beta iota zeta. rewrite unsigned_to_uint.
    simpl option_map. simpl Z.opp. cbv beta iota.
    now rewrite Hin.
Qed.

(** ** truncateStr at any bound *)

(** X1.  truncateStr panics exactly when the bound is under 3 and the
    string is longer than the bound: the slice s[:maxLen-3] then has a
    negative end.  In every other case it returns. *)
Theorem truncateStr_panics_iff (s : string) (maxLen : Z) :
  truncateStr s maxLen = None <-> maxLen < 3 /\ maxLen < len s.
Proof.
  split.
  - unfold truncateStr, slice_to.
    destruct (Z.leb_spec (len s) maxLen) as [Hle|Hgt]; [discriminate |].
    destruct (Z.ltb_spec (maxLen - 3) 0) as [Hneg|Hpos]; [intros _; lia |].
    destruct (Z.ltb_spec (len s) (maxLen - 3)); [lia | discriminate].
  - intros [H3 Hlen]. now apply truncateStr_panics.
Qed.

(** X2.  Whenever truncateStr returns, the result is at most maxLen bytes
    long, it is the string itself or the first maxLen-3 bytes of it
    followed by three dots, and truncating it again changes nothing. *)
Theorem truncateStr_bounded_idempotent (s t : string) (maxLen : Z) :
  truncateStr s maxLen = Some t ->
  len t <= maxLen
  /\ (t = s \/ t = substring 0 (Z.to_nat (maxLen - 3)) s ++ "...")
  /\ truncateStr t maxLen = Some t.
Proof.
  intros Ht.
  destruct (Z.le_gt_cases (len s) maxLen) as [Hle|Hgt].
  - rewrite truncateStr_short in Ht by exact Hle.
    injection Ht as <-. repeat split; [exact Hle | now left |].
    now apply truncateStr_short.
  - destruct (Z.lt_ge_cases maxLen 3) as [H3|H3].
    + rewrite truncateStr_panics in Ht by lia. discriminate.
    + rewrite truncateStr_long in Ht by lia. injection Ht as <-.
      pose proof (truncateStr_long_len s maxLen H3 ltac:(lia)) as Hl.
      repeat split; [lia | now right |].
      apply truncateStr_short. lia.
Qed.

Lemma truncateStr_bounded_idempotent_witness :
  truncateStr "remember the milk" 10 = Some "remembe..."
  /\ len "remembe..." <= 10
  /\ truncateStr "remembe..." 10 = Some "remembe...".
Proof.
  pose proof (truncateStr_bounded_idempotent
                "remember the milk" "remembe..." 10 eq_refl) as (Hl & _ & Hi).
  split; [reflexivity |]. split; [exact Hl | exact Hi].
Defined.

(** ** What the decoder accepts *)

Lemma object_flag {T : Type} (names : list string)
    (set : string -> json -> T -> T * bool) (okv : string -> json -> bool) :
  (forall f v p, snd (set f v p) = okv f v) ->
  forall members p,
    snd (object names set members p) =
    forallb (fun kv =>
               match fieldFor names (fst kv) with
               | Some f => okv f (snd kv)
               | None => true
               end) members.
Proof.
  intros Hset. induction members as [|[key v] rest IH]; intros p.
  - reflexivity.
  - simpl. destruct (fieldFor names key) as [f|].
    + specialize (Hset f v p). destruct (set f v p) as [p1 ok1].
      specialize (IH p1). destruct (object names set rest p1) as [p2 ok2].
      simpl in *. now rewrite Hset, IH.
    + specialize (IH p). destruct (object names set rest p) as [p2 ok2].
      simpl in *. now rewrite IH.
Qed.

Section Accepts.

Context {sc : Strconv}.

Lemma intoAny_flag (v : json) (cur : any) :
  snd (intoAny v cur) = match goValue v with Some _ => true | None => false end.
Proof.
  unfold goValue, intoAny.
  destruct v; try (now destruct (valueInterface _) as [a []]).
  now destruct (float64Literal lit).
Qed.

Lemma object_request_flag members p :
  snd (object JSONRPCRequest.names JSONRPCRequest.set members p)
  = acceptedRequest members.
Proof.
  unfold acceptedRequest.
  apply (object_flag JSONRPCRequest.names JSONRPCRequest.set suitsRequest).
  intros f v q. unfold JSONRPCRequest.set, suitsRequest.
  pose proof (intoAny_flag v (JSONRPCRequest.ID q)) as Hid.
  destruct (intoAny v (JSONRPCRequest.ID q)) as [x ok]. cbn [snd] in Hid.
  cbn [existsb].
  destruct (String.eqb_spec f "jsonrpc") as [->|H1];
    [destruct v; reflexivity |].
  destruct (String.eqb_spec f "id") as [->|H2]; [exact Hid |].
  destruct (String.eqb_spec f "method") as [->|H3];
    [destruct v; reflexivity |].
  cbn [orb].
  destruct (String.eqb_spec f "params") as [->|H4]; reflexivity.
Qed.

Lemma object_request_fields members req :
  object JSONRPCRequest.names JSONRPCRequest.set members JSONRPCRequest.zero
  = (req, true) ->
  req = lastRequest members.
Proof.
  intros Hreq.
  pose proof (object_field JSONRPCRequest.JSONRPC JSONRPCRequest.names
                JSONRPCRequest.set "jsonrpc" readString) as H1.
  pose proof (decodeRequest_id members req Hreq) as H2.
  pose proof (object_field JSONRPCRequest.Method JSONRPCRequest.names
                JSONRPCRequest.set "method" readString) as H3.
  pose proof (object_field JSONRPCRequest.Params JSONRPCRequest.names
                JSONRPCRequest.set "params" (fun v => Some (Some v))) as H4.
  specialize (H1 ltac:(request_set) members JSONRPCRequest.zero).
  specialize (H3 ltac:(request_set) members JSONRPCRequest.zero).
  specialize (H4 ltac:(request_set) members JSONRPCRequest.zero).
  rewrite Hreq in H1, H3, H4. cbn [fst] in H1, H3, H4.
  unfold lastRequest.
  destruct req as [a b c d].
  cbn [JSONRPCRequest.JSONRPC JSONRPCRequest.ID JSONRPCRequest.Method
       JSONRPCRequest.Params JSONRPCRequest.zero] in *.
  subst a b c d. reflexivity.
Qed.


End Accepts.

(** ** The responses of the handlers *)

Section Protocol.

Context {St E X : Type} {E_error : error E} {db : StoreAPI St E} {rt : Runtime X}
        {sc : Strconv}.

Implicit Types (s : Server St X) (req : JSONRPCRequest.t).

Ltac reply_error :=
  apply ReplyError; simpl; tauto.

Lemma handleRecall_reply req args s :
  exists resp,
    Reply (JSONRPCRequest.ID req) resp /\ wrote resp s (handleRecall req args s).
Proof.
  unfold handleRecall.
  pose proof (writer_recallSearch (recallParams args) s) as Hw.
  destruct (recallSearch (recallParams args) s) as [found s1]. simpl in Hw.
  destruct found as [memories|err]; simpl.
  - eexists; split; [apply ReplyText |].
    eapply wrote_after; [exact Hw | apply wrote_sendResult].
  - eexists; split; [| eapply wrote_after; [exact Hw | apply wrote_sendError]].
    reply_error.
Qed.

Lemma handleRemember_reply req args s :
  exists resp,
    Reply (JSONRPCRequest.ID req) resp /\ wrote resp s (handleRemember req args s).
Proof.
  unfold handleRemember.
  pose proof (writer_rememberSave (rememberParams args) s) as Hw.
  destruct (rememberSave (rememberParams args) s) as [[err memory] s1].
  simpl in Hw.
  destruct err as [err|]; simpl.
  - eexists; split; [| eapply wrote_after; [exact Hw | apply wrote_sendError]].
    reply_error.
  - eexists; split; [apply ReplyText |].
    eapply wrote_after; [| apply wrote_sendResult].
    now rewrite writer_embedMemory.
Qed.

Lemma handleStatus_reply req s :
  exists resp,
    Reply (JSONRPCRequest.ID req) resp /\ wrote resp s (handleStatus req s).
Proof.
  unfold handleStatus.
  pose proof (writer_onStore GetStats s) as Hw.
  destruct (onStore GetStats s) as [got s1]. simpl in Hw.
  destruct got as [stats|err].
  - eexists; split; [apply ReplyText |].
    eapply wrote_after; [exact Hw | apply wrote_sendResult].
  - eexists; split; [| eapply wrote_after; [exact Hw | apply wrote_sendError]].
    reply_error.
Qed.

Lemma handleToolsCall_reply req s :
  exists resp,
    Reply (JSONRPCRequest.ID req) resp /\ wrote resp s (handleToolsCall req s).
Proof.
  unfold handleToolsCall.
  destruct (Unmarshal CallParams.names CallParams.set (JSONRPCRequest.Params req)
                      CallParams.zero) as [params ok].
  destruct ok; simpl.
  - destruct (String.eqb (CallParams.Name params) "memorypilot_recall");
      [apply handleRecall_reply |].
    destruct (String.eqb (CallParams.Name params) "memorypilot_remember");
      [apply handleRemember_reply |].
    destruct (String.eqb (CallParams.Name params) "memorypilot_status");
      [apply handleStatus_reply |].
    eexists; split; [| apply wrote_sendError]. reply_error.
  - eexists; split; [| apply wrote_sendError]. reply_error.
Qed.

Lemma handleRequest_reply req s :
  exists resp,
    Reply (JSONRPCRequest.ID req) resp /\ wrote resp s (handleRequest req s).
Proof.
  unfold handleRequest.
  destruct (String.eqb (JSONRPCRequest.Method req) "initialize").
  { eexists; split; [apply ReplyInfo | apply wrote_sendResult]. }
  destruct (String.eqb (JSONRPCRequest.Method req) "tools/list").
  { eexists; split; [apply ReplyTools | apply wrote_sendResult]. }
  destruct (String.eqb (JSONRPCRequest.Method req) "tools/call").
  { apply handleToolsCall_reply. }
  eexists; split; [| apply wrote_sendError]. reply_error.
Qed.

Lemma Reply_line (id : any) (resp : JSONRPCResponse.t) :
  Reply id resp ->
  lineMember "jsonrpc" (Marshal resp) = Some (JString "2.0")
  /\ ((exists result,
         lineMember "result" (Marshal resp) = Some result
         /\ lineMember "error" (Marshal resp) = None)
      \/ (exists code message,
            In code [-32601; -32602; -32000]
            /\ lineMember "result" (Marshal resp) = None
            /\ lineMember "error" (Marshal resp)
               = Some (JObject [("code", JNumber (Itoa code));
                                ("message", JString message)]))).
Proof.
  intros [ | |text|code message Hcode].
  - destruct id; (split; [reflexivity | left; eexists; split; reflexivity]).
  - destruct id; (split; [reflexivity | left; eexists; split; reflexivity]).
  - destruct id; (split; [reflexivity | left; eexists; split; reflexivity]).
  - destruct id;
      (split; [reflexivity |
               right; exists code, (coerce message);
               split; [exact Hcode | split; reflexivity]]).
Qed.

(** X4.  Every line a handler writes is a well-formed JSON-RPC response:
    its jsonrpc member is 2.0 and it has either a result and no error, or
    an error and no result; the code of an error is -32601, -32602 or
    -32000 (the parse error -32700 is never sent by a handler, only by the
    loop for a line it could not decode). *)
Theorem responses_are_well_formed req s :
  exists resp : JSONRPCResponse.t,
    wrote resp s (handleRequest req s)
    /\ lineMember "jsonrpc" (Marshal resp) = Some (JString "2.0")
    /\ ((exists result,
           lineMember "result" (Marshal resp) = Some result
           /\ lineMember "error" (Marshal resp) = None)
        \/ (exists code message,
              In code [-32601; -32602; -32000]
              /\ lineMember "result" (Marshal resp) = None
              /\ lineMember "error" (Marshal resp)
                 = Some (JObject [("code", JNumber (Itoa code));
                                  ("message", JString message)]))).
Proof.
  destruct (handleRequest_reply req s) as (resp & Hr & Hw).
  exists resp. split; [exact Hw |]. now apply Reply_line with (id := JSONRPCRequest.ID req).
Qed.

(** X5.  Only tools/call reaches the store or the gateway: a request of
    any other method, initialize, tools/list or an unknown one, leaves the
    store and the outside world exactly as they were. *)
Theorem only_tool_calls_touch_the_store req s :
  JSONRPCRequest.Method req <> "tools/call" ->
  store (handleRequest req s) = store s /\ world (handleRequest req s) = world s.
Proof.
  intros Hm. unfold handleRequest.
  destruct (String.eqb (JSONRPCRequest.Method req) "initialize"); [now split |].
  destruct (String.eqb (JSONRPCRequest.Method req) "tools/list"); [now split |].
  destruct (String.eqb_spec (JSONRPCRequest.Method req) "tools/call");
    [contradiction | now split].
Qed.

Lemma object_call_flag members p :
  snd (object CallParams.names CallParams.set members p)
  = wellTyped CallParams.names ["name"] members.
Proof.
  unfold wellTyped.
  apply (object_flag CallParams.names CallParams.set
           (fun f v => if existsb (String.eqb f) ["name"]
                       then stringOrNull v else true)).
  intros f v q. unfold CallParams.set. simpl existsb.
  set_cases f; try reflexivity; destruct v; reflexivity.
Qed.

Lemma object_call_name members :
  CallParams.Name (fst (object CallParams.names CallParams.set members
                               CallParams.zero))
  = toolName members.
Proof.
  unfold toolName.
  apply (object_field CallParams.Name CallParams.names CallParams.set
           "name" readString).
  intros f v p. unfold CallParams.set. set_cases f;
    try reflexivity; destruct v; reflexivity.
Qed.


(** ** The run as a whole *)

Lemma loop_app (pre rest : list Read) : forall s,
  onlyLines pre -> loop (pre ++ rest) s = loop rest (snd (loop pre s)).
Proof.
  induction pre as [|r pre IH]; intros s Hlines.
  - reflexivity.
  - assert (Hpre : onlyLines pre) by (intros x Hx; apply Hlines; now right).
    destruct (Hlines r (or_introl eq_refl)) as [line ->].
    simpl. destruct (decodeRequest line) as [req ok].
    destruct ok; simpl; now apply IH.
Qed.

(** X7.  A read error ends the run at once: Run returns the error, with
    the prefix read error, and its output is exactly the output of the
    lines read before; whatever follows the failed read is never read nor
    answered. *)
Theorem read_error_ends_the_run (pre post : list Read) (msg : string) s :
  onlyLines pre ->
  Run (pre ++ ReadError msg :: post) s
  = (Some ("read error: " ++ msg), snd (Run pre s)).
Proof.
  intros Hlines. unfold Run. now rewrite loop_app.
Qed.

Lemma loop_output (reader : list Read) : forall s,
  fst (loop reader s) = option_map (append "read error: ") (firstError reader)
  /\ exists out,
       writer (snd (loop reader s)) = (writer s ++ out)%list
       /\ List.length out = linesRead reader.
Proof.
  induction reader as [|r rest IH]; intros s.
  - split; [reflexivity |]. exists []. now rewrite app_nil_r.
  - destruct r as [line|msg].
    + simpl. destruct (decodeRequest line) as [req ok]. destruct ok; simpl.
      * destruct (IH (handleRequest req s)) as (Hret & out & Hout & Hlen).
        split; [exact Hret |].
        destruct (handleRequest_answers req s) as (resp & _ & Hw).
        exists (Marshal resp :: out). rewrite Hout, Hw, <- app_assoc.
        split; [reflexivity | simpl; now rewrite Hlen].
      * destruct (IH (sendError JNull (-32700) "Parse error" s))
          as (Hret & out & Hout & Hlen).
        split; [exact Hret |].
        exists (Marshal (failure JNull (-32700) "Parse error") :: out).
        rewrite Hout. simpl. rewrite <- app_assoc.
        split; [reflexivity | simpl; now rewrite Hlen].
    + split; [reflexivity |]. exists []. now rewrite app_nil_r.
Qed.

(** X8.  What a run writes and returns.  Run only appends to the output.
    It first writes the server information, as a result without id
    member, even when the input is empty or the first read fails; then
    exactly one line for each line read before the first read error,
    decodable or not.  It returns nil when the stream ends without a read
    error, and the first read error otherwise. *)
Theorem run_output (reader : list Read) s :
  fst (Run reader s) = option_map (append "read error: ") (firstError reader)
  /\ exists out,
       writer (snd (Run reader s))
       = (writer s
          ++ JObject [("jsonrpc", JString "2.0"); ("result", serverInfo)] :: out)%list
       /\ List.length out = linesRead reader.
Proof.
  unfold Run.
  destruct (loop_output reader (sendServerInfo s)) as (Hret & out & Hout & Hlen).
  split; [exact Hret |]. exists out. split; [| exact Hlen].
  rewrite Hout. simpl. now rewrite <- app_assoc.
Qed.

End Protocol.

(** ** Remember: the write and the embedding step *)

Section Remember.

Context {St E X : Type} {E_error : error E} {db : StoreAPI St E} {rt : Runtime X}.

Implicit Types (s : Server St X) (req : JSONRPCRequest.t).

(** X9.  Once the store has accepted the write, remember reports success
    whatever the embedding step does.  Without a vector the store is left
    as the write left it; with a vector UpdateMemoryEmbedding is called
    once, with the identifier of the memory and that vector, and its
    result is not looked at: a failed update is not reported. *)
Theorem remember_reports_success_once_saved req args s memory s1 emb w :
  let params := rememberParams args in
  rememberSave params s = (None, memory, s1) ->
  Embed (Memory.Content memory) (world s1) = (emb, w) ->
  handleRemember req args s =
  sendResult (JSONRPCRequest.ID req) (textContent (rememberText params memory))
    (mkServer
       match emb with
       | EmbedVector v =>
           snd (UpdateMemoryEmbedding (Memory.ID memory) v (store s1))
       | _ => store s1
       end
       w (writer s)).
Proof.
  intros params Hsave He.
  unfold handleRemember. fold params. rewrite Hsave. simpl.
  pose proof (writer_rememberSave params s) as Hw. rewrite Hsave in Hw.
  simpl in Hw.
  unfold embedMemory, onWorld. rewrite He.
  destruct emb; simpl; try now rewrite Hw.
  unfold onStore. simpl.
  destruct (UpdateMemoryEmbedding (Memory.ID memory) v (store s1)). simpl.
  now rewrite Hw.
Qed.

(** X10.  When the store refuses the write, remember answers with the
    error -32000, whose message is the message of the store after the
    words Failed to save memory, and stops there: the gateway is not
    asked for an embedding (the outside world has only seen the reading of
    the clock and the drawing of the identifier) and the store is as the
    refused write left it. *)
Theorem failed_write_skips_embedding req args s err memory s1 :
  let params := rememberParams args in
  rememberSave params s = (Some err, memory, s1) ->
  handleRemember req args s =
    sendError (JSONRPCRequest.ID req) (-32000)
              ("Failed to save memory: " ++ Error err) s1
  /\ world (handleRemember req args s) = snd (MakeULID (snd (Now (world s))))
  /\ store (handleRemember req args s) = store s1.
Proof.
  intros params Hsave.
  assert (Hh : handleRemember req args s =
                 sendError (JSONRPCRequest.ID req) (-32000)
                           ("Failed to save memory: " ++ Error err) s1).
  { unfold handleRemember. fold params. now rewrite Hsave. }
  rewrite Hh. split; [reflexivity |]. split; [| reflexivity].
  pose proof (rememberSave_eq params s) as Heq. rewrite Hsave in Heq.
  cbv zeta in Heq. injection Heq as _ Hs1. now subst s1.
Qed.

End Remember.

(** ** The store calls a request makes *)

Section StoreCalls.

Import Probe.

Context {St E X : Type} {E_error : error E} (db : StoreAPI St E) {rt : Runtime X}.

Import Traced.

Implicit Types (s : TServer St X) (req : JSONRPCRequest.t).

Lemma onStore_logged {A : Type} (c : Call) (f : St -> A * St) s :
  let r := onStore (Traced.logged c f) s in
  let r0 := onStore f (erase s) in
  fst r = fst r0 /\ erase (snd r) = snd r0
  /\ calls (snd r) = (calls s ++ [c])%list.
Proof.
  unfold onStore, Traced.logged, erase, calls. simpl.
  destruct (f (fst (store s))) as [a st']. simpl. auto.
Qed.

Lemma onWorld_erase {A : Type} (f : X -> A * X) s :
  let r := onWorld f s in
  fst r = fst (onWorld f (erase s)) /\ erase (snd r) = snd (onWorld f (erase s))
  /\ calls (snd r) = calls s.
Proof.
  unfold onWorld, erase, calls. simpl.
  destruct (f (world s)) as [a w]. simpl. auto.
Qed.

Lemma send_erase resp s :
  erase (send resp s) = send resp (erase s) /\ calls (send resp s) = calls s.
Proof. split; reflexivity. Qed.

Lemma recallSearch_traced params s :
  let r := recallSearch (db := Traced.api db) params s in
  fst r = fst (recallSearch (db := db) params (erase s))
  /\ erase (snd r) = snd (recallSearch (db := db) params (erase s))
  /\ exists c,
       calls (snd r) = (calls s ++ [c])%list
       /\ (c = CallRecall (RecallRequest.mk (RecallParams.Query params)
                                            (RecallParams.Limit params))
           \/ exists v, c = CallHybridSearch (RecallParams.Query params) v
                                             (RecallParams.Limit params)).
Proof.
  cbv zeta. unfold recallSearch.
  destruct (onWorld_erase (Embed (RecallParams.Query params)) s)
    as (Ha & Hb & Hc).
  destruct (onWorld (Embed (RecallParams.Query params)) s) as [emb s1].
  destruct (onWorld (Embed (RecallParams.Query params)) (erase s)) as [emb0 s10].
  simpl in Ha, Hb, Hc. subst emb0 s10.
  destruct emb as [| |v]; simpl.
  - destruct (onStore_logged
                (CallRecall (RecallRequest.mk (RecallParams.Query params)
                                              (RecallParams.Limit params)))
                (Recall (RecallRequest.mk (RecallParams.Query params)
                                          (RecallParams.Limit params))) s1)
      as (H1 & H2 & H3).
    split; [exact H1 |]. split; [exact H2 |].
    eexists. split; [rewrite <- Hc; exact H3 | now left].
  - destruct (onStore_logged
                (CallRecall (RecallRequest.mk (RecallParams.Query params)
                                              (RecallParams.Limit params)))
                (Recall (RecallRequest.mk (RecallParams.Query params)
                                          (RecallParams.Limit params))) s1)
      as (H1 & H2 & H3).
    split; [exact H1 |]. split; [exact H2 |].
    eexists. split; [rewrite <- Hc; exact H3 | now left].
  - destruct (onStore_logged
                (CallHybridSearch (RecallParams.Query params) v
                                  (RecallParams.Limit params))
                (HybridSearch (RecallParams.Query params) v
                              (RecallParams.Limit params)) s1)
      as (H1 & H2 & H3).
    split; [exact H1 |]. split; [exact H2 |].
    eexists. split; [rewrite <- Hc; exact H3 | right; now exists v].
Qed.

Lemma handleRecall_traced req args s :
  let s' := handleRecall (db := Traced.api db) req args s in
  erase s' = handleRecall (db := db) req args (erase s)
  /\ exists c,
       calls s' = (calls s ++ [c])%list
       /\ Traced.isWrite c = false /\ Traced.oneRequest [c] = true.
Proof.
  cbv zeta. unfold handleRecall.
  destruct (recallSearch_traced (recallParams args) s)
    as (Ha & Hb & c & Hc & Hkind).
  destruct (recallSearch (db := Traced.api db) (recallParams args) s)
    as [found s1].
  destruct (recallSearch (db := db) (recallParams args) (erase s))
    as [found0 s10].
  simpl in Ha, Hb, Hc. subst found0 s10.
  split.
  - destruct found; apply send_erase.
  - exists c. split.
    + destruct found; exact Hc.
    + destruct Hkind as [-> | [v ->]]; split; reflexivity.
Qed.

Lemma handleStatus_traced req s :
  let s' := handleStatus (db := Traced.api db) req s in
  erase s' = handleStatus (db := db) req (erase s)
  /\ calls s' = (calls s ++ [CallGetStats])%list.
Proof.
  cbv zeta. unfold handleStatus.
  destruct (onStore_logged CallGetStats GetStats s) as (Ha & Hb & Hc).
  change (@GetStats _ _ (Traced.api db)) with (Traced.logged CallGetStats GetStats).
  destruct (onStore (Traced.logged CallGetStats GetStats) s) as [got s1].
  destruct (onStore GetStats (erase s)) as [got0 s10].
  simpl in Ha, Hb, Hc. subst got0 s10.
  destruct got; split; try exact Hc; apply send_erase.
Qed.

Lemma rememberSave_traced params s :
  let r := rememberSave (db := Traced.api db) params s in
  fst r = fst (rememberSave (db := db) params (erase s))
  /\ erase (snd r) = snd (rememberSave (db := db) params (erase s))
  /\ exists m, calls (snd r) = (calls s ++ [CallCreateMemory m])%list.
Proof.
  cbv zeta. unfold rememberSave.
  destruct (onWorld_erase Now s) as (Ha & Hb & Hc).
  destruct (onWorld Now s) as [now s1].
  destruct (onWorld Now (erase s)) as [now0 s10].
  simpl in Ha, Hb, Hc. subst now0 s10.
  destruct (onWorld_erase MakeULID s1) as (Ha' & Hb' & Hc').
  destruct (onWorld MakeULID s1) as [id s2].
  destruct (onWorld MakeULID (erase s1)) as [id0 s20].
  simpl in Ha', Hb', Hc'. subst id0 s20.
  destruct (onStore_logged (CallCreateMemory (newMemory params now id))
                           (CreateMemory (newMemory params now id)) s2)
    as (H1 & H2 & H3).
  split; [exact H1 |]. split; [exact H2 |].
  exists (newMemory params now id).
  etransitivity; [exact H3 | congruence].
Qed.

Lemma embedMemory_traced memory s :
  let s' := embedMemory (db := Traced.api db) memory s in
  erase s' = embedMemory (db := db) memory (erase s)
  /\ (calls s' = calls s
      \/ exists v,
           calls s'
           = (calls s ++ [CallUpdateMemoryEmbedding (Memory.ID memory) v])%list).
Proof.
  cbv zeta. unfold embedMemory.
  destruct (onWorld_erase (Embed (Memory.Content memory)) s) as (Ha & Hb & Hc).
  destruct (onWorld (Embed (Memory.Content memory)) s) as [emb s1].
  destruct (onWorld (Embed (Memory.Content memory)) (erase s)) as [emb0 s10].
  simpl in Ha, Hb, Hc. subst emb0 s10.
  destruct emb as [| |v]; try (split; [reflexivity | now left]).
  destruct (onStore_logged (CallUpdateMemoryEmbedding (Memory.ID memory) v)
                           (UpdateMemoryEmbedding (Memory.ID memory) v) s1)
    as (_ & H2 & H3).
  split; [exact H2 |]. right. exists v. rewrite <- Hc. exact H3.
Qed.

Lemma handleRemember_traced req args s :
  let s' := handleRemember (db := Traced.api db) req args s in
  erase s' = handleRemember (db := db) req args (erase s)
  /\ exists m,
       calls s' = (calls s ++ [CallCreateMemory m])%list
       \/ exists id v,
            calls s' = (calls s ++ [CallCreateMemory m;
                                    CallUpdateMemoryEmbedding id v])%list.
Proof.
  cbv zeta. unfold handleRemember.
  destruct (rememberSave_traced (rememberParams args) s)
    as (Ha & Hb & m & Hc).
  destruct (rememberSave (db := Traced.api db) (rememberParams args) s)
    as [[err memory] s1].
  destruct (rememberSave (db := db) (rememberParams args) (erase s))
    as [[err0 memory0] s10].
  simpl in Ha, Hb, Hc. injection Ha as -> ->. subst s10.
  destruct err0 as [err|]; simpl.
  - split; [apply send_erase |]. exists m. now left.
  - destruct (embedMemory_traced memory0 s1) as (He & Hcalls).
    split.
    + unfold sendResult. rewrite (proj1 (send_erase _ _)). now rewrite He.
    + exists m. change (calls (sendResult ?i ?r ?x)) with (calls x).
      destruct Hcalls as [Heq | (v & Heq)].
      * left. now rewrite Heq.
      * right. exists (Memory.ID memory0), v. rewrite Heq, Hc.
        now rewrite <- app_assoc.
Qed.

Lemma handleToolsCall_traced req s :
  let s' := handleToolsCall (db := Traced.api db) req s in
  erase s' = handleToolsCall (db := db) req (erase s)
  /\ exists cs, calls s' = (calls s ++ cs)%list /\ Traced.oneRequest cs = true.
Proof.
  cbv zeta. unfold handleToolsCall.
  destruct (Unmarshal CallParams.names CallParams.set (JSONRPCRequest.Params req)
                      CallParams.zero) as [params ok].
  destruct ok; simpl.
  - destruct (String.eqb (CallParams.Name params) "memorypilot_recall").
    { destruct (handleRecall_traced req (CallParams.Arguments params) s)
        as (He & c & Hc & _ & Hone).
      split; [exact He |]. now exists [c]. }
    destruct (String.eqb (CallParams.Name params) "memorypilot_remember").
    { destruct (handleRemember_traced req (CallParams.Arguments params) s)
        as (He & m & [Hc | (id & v & Hc)]).
      - split; [exact He |]. now exists [CallCreateMemory m].
      - split; [exact He |].
        now exists [CallCreateMemory m; CallUpdateMemoryEmbedding id v]. }
    destruct (String.eqb (CallParams.Name params) "memorypilot_status").
    { destruct (handleStatus_traced req s) as (He & Hc).
      split; [exact He |]. now exists [CallGetStats]. }
    split; [apply send_erase |]. exists []. now rewrite app_nil_r.
  - split; [apply send_erase |]. exists []. now rewrite app_nil_r.
Qed.

(** X11.  The store calls of one request.  Over any store wrapped to log
    its calls, handling a request gives the same responses, outside world
    and underlying store as over the store itself, and the log grows by
    the calls of that one request: none, or one search (Recall or
    HybridSearch), or one GetStats, or one CreateMemory followed by at
    most one UpdateMemoryEmbedding. *)
Theorem request_store_calls req s :
  let s' := handleRequest (db := Traced.api db) req s in
  erase s' = handleRequest (db := db) req (erase s)
  /\ exists cs, calls s' = (calls s ++ cs)%list /\ Traced.oneRequest cs = true.
Proof.
  cbv zeta. unfold handleRequest.
  destruct (String.eqb (JSONRPCRequest.Method req) "initialize").
  { split; [apply send_erase |]. exists []. now rewrite app_nil_r. }
  destruct (String.eqb (JSONRPCRequest.Method req) "tools/list").
  { split; [apply send_erase |]. exists []. now rewrite app_nil_r. }
  destruct (String.eqb (JSONRPCRequest.Method req) "tools/call").
  { apply handleToolsCall_traced. }
  split; [apply send_erase |]. exists []. now rewrite app_nil_r.
Qed.

(** X12.  The store calls of each tool, exactly.  Over any store, recall
    makes one call: HybridSearch with the query, the vector and the limit
    when the gateway gives a vector for the query, and otherwise Recall
    with the query and the limit; status makes one call, GetStats; so
    neither writes.  Remember never searches: its first call is
    CreateMemory with the memory built from the arguments, the clock and
    the identifier drawn; if the store refuses the write that is its only
    call, and otherwise its only other call is UpdateMemoryEmbedding, made
    exactly when the gateway gives a vector for the content of the memory
    the store handed back, with the identifier of that memory and that
    vector. *)
Theorem recall_and_status_are_read_only req args s :
  let params := recallParams args in
  let query := RecallParams.Query params in
  let limit := RecallParams.Limit params in
  let now := fst (Now (world s)) in
  let id := fst (MakeULID (snd (Now (world s)))) in
  let w2 := snd (MakeULID (snd (Now (world s)))) in
  let memory := newMemory (rememberParams args) now id in
  let saved := fst (CreateMemory (StoreAPI := db) memory (fst (store s))) in
  calls (handleRecall (db := Traced.api db) req args s)
  = (calls s
     ++ [match fst (Embed query (world s)) with
         | EmbedVector v => CallHybridSearch query v limit
         | _ => CallRecall (RecallRequest.mk query limit)
         end])%list
  /\ calls (handleStatus (db := Traced.api db) req s)
     = (calls s ++ [CallGetStats])%list
  /\ calls (handleRemember (db := Traced.api db) req args s)
     = (calls s
        ++ CallCreateMemory memory
           :: match fst saved with
              | Some _ => []
              | None =>
                  match fst (Embed (Memory.Content (snd saved)) w2) with
                  | EmbedVector v =>
                      [CallUpdateMemoryEmbedding (Memory.ID (snd saved)) v]
                  | _ => []
                  end
              end)%list.
Proof.
  cbv zeta. split; [| split].
  - unfold handleRecall, recallSearch, onWorld.
    destruct (Embed (RecallParams.Query (recallParams args)) (world s))
      as [emb w].
    cbn [fst].
    destruct emb as [| |v]; unfold onStore;
      cbn [store HybridSearch Recall Traced.api]; unfold Traced.logged;
      cbn [fst snd].
    + destruct (Recall _ (fst (store s))) as [[found|err] st']; reflexivity.
    + destruct (Recall _ (fst (store s))) as [[found|err] st']; reflexivity.
    + destruct (HybridSearch _ _ _ (fst (store s))) as [[found|err] st'];
        reflexivity.
  - apply handleStatus_traced.
  - unfold handleRemember, rememberSave, onWorld.
    destruct (Now (world s)) as [now w1]. cbn [fst snd world store].
    destruct (MakeULID w1) as [id w2]. cbn [fst snd world store].
    unfold onStore. cbn [store CreateMemory Traced.api]. unfold Traced.logged.
    cbn [fst snd].
    destruct (CreateMemory (newMemory (rememberParams args) now id)
                           (fst (store s))) as [[err memory] st'].
    cbn [fst snd]. destruct err as [err|]; [reflexivity |].
    cbn [rememberReply]. unfold embedMemory, onWorld. cbn [world store].
    destruct (Embed (Memory.Content memory) w2) as [emb w3]. cbn [fst].
    destruct emb as [| |v]; try reflexivity.
    unfold onStore. cbn [store UpdateMemoryEmbedding Traced.api].
    unfold Traced.logged. cbn [fst snd].
    destruct (UpdateMemoryEmbedding (Memory.ID memory) v st') as [e st''].
    unfold calls. cbn. now rewrite <- app_assoc.
Qed.

End StoreCalls.

(** ** Round trips through the encoder and the decoder *)

Lemma decodeOver_strings (l : list string) : forall backing,
  map fst (decodeOver (map JString l) backing) = l
  /\ forallb snd (decodeOver (map JString l) backing) = true.
Proof.
  induction l as [|a l IH]; intros backing; [split; reflexivity |].
  destruct backing as [|b bs]; cbn [map decodeOver intoString fst snd forallb].
  - destruct (IH []) as [H1 H2]. rewrite H1, H2. split; reflexivity.
  - destruct (IH bs) as [H1 H2]. rewrite H1, H2. split; reflexivity.
Qed.

Lemma intoStrings_strings (l : list string) :
  intoStrings (strings l) [] [] = ((l, []), true).
Proof.
  destruct l as [|a l]; [reflexivity |].
  unfold strings, intoStrings.
  destruct (decodeOver_strings (a :: l) []) as [H1 H2].
  cbn [map] in *. cbn [app]. rewrite H1, H2.
  now rewrite skipn_nil.
Qed.

(** X14.  Arguments written as the schemas of tools/list describe them are
    decoded exactly.  For every query and every limit of the int range,
    written as a decimal literal, recall runs with that query and that
    limit, 5 standing for 0; for every content, type and list of topics,
    remember runs with that content, that list, and that type, fact
    standing for the empty type. *)
Theorem well_formed_arguments_are_decoded_exactly
    (query content type : string) (limit : Z) (topics : list string) :
  MinInt64 <= limit <= MaxInt64 ->
  recallParams (Some (JObject [("query", JString query);
                               ("limit", JNumber (Itoa limit))]))
  = RecallParams.mk query (if limit =? 0 then 5 else limit) false
  /\ rememberParams (Some (JObject [("content", JString content);
                                    ("type", JString type);
                                    ("topics", strings topics)]))
     = RememberParams.mk content (if String.eqb type "" then "fact" else type)
                         topics.
Proof.
  intros Hr. split.
  - unfold recallParams.
    pose proof (decodedRecall_fields
                  (Some (JObject [("query", JString query);
                                  ("limit", JNumber (Itoa limit))]))) as Hd.
    unfold decodedRecall in Hd. rewrite Hd.
    unfold lastRecall. cbn -[ParseInt Itoa Z.eqb].
    rewrite (ParseInt_Itoa limit Hr). cbn -[Z.eqb].
    now destruct (limit =? 0).
  - unfold rememberParams, Unmarshal.
    cbn -[intoStrings strings String.eqb].
    change (fieldFor RememberParams.names "content") with (Some "content").
    change (fieldFor RememberParams.names "type") with (Some "type").
    change (fieldFor RememberParams.names "topics") with (Some "topics").
    unfold RememberParams.set.
    cbn -[intoStrings strings].
    rewrite intoStrings_strings. cbn.
    now destruct (String.eqb type "").
Qed.

Lemma well_formed_arguments_are_decoded_exactly_witness :
  recallParams (Some (JObject [("query", JString "caching");
                               ("limit", JNumber (Itoa (-3)))]))
  = RecallParams.mk "caching" (-3) false
  /\ rememberParams (Some (JObject [("content", JString "Use Redis");
                                    ("type", JString "");
                                    ("topics", strings ["cache"; "infra"])]))
     = RememberParams.mk "Use Redis" "fact" ["cache"; "infra"].
Proof.
  apply (well_formed_arguments_are_decoded_exactly
           "caching" "Use Redis" "" (-3) ["cache"; "infra"]).
  vm_compute. split; discriminate.
Defined.

(** ** The text of a recall *)

Lemma append_assoc (a b c : string) : (a ++ b) ++ c = a ++ (b ++ c).
Proof.
  induction a as [|x a IH]; simpl; [reflexivity | now rewrite IH].
Qed.

(** X15.  The items of a recall text are numbered consecutively: the text
    of a list is the text of its first part followed by the text of the
    rest, numbered from where the first part stopped. *)
Theorem recallItems_app (a b : list Memory.t) : forall i : Z,
  recallItems i (a ++ b)
  = recallItems i a ++ recallItems (i + Z.of_nat (List.length a)) b.
Proof.
  induction a as [|m a IH]; intros i.
  - simpl. now rewrite Z.add_0_r.
  - cbn [recallItems app List.length]. rewrite IH.
    replace (i + 1 + Z.of_nat (List.length a))
      with (i + Z.of_nat (Datatypes.S (List.length a))) by lia.
    rewrite !append_assoc. reflexivity.
Qed.

(* ================================================================== *)
(** * Properties of the daemon commands *)

(** ** The PID file *)

Lemma digits_stops_at (c : ascii) (rest : string) :
  digit c = None ->
  forall (s : string) (acc : Z), digits (s ++ String c rest) acc = None.
Proof.
  intros Hc. induction s as [|a s IH]; intros acc; simpl.
  - now rewrite Hc.
  - destruct (digit a); [apply IH | reflexivity].
Qed.

Lemma unsigned_stops_at (c : ascii) (rest s : string) :
  digit c = None -> unsigned (s ++ String c rest) = None.
Proof.
  intros Hc. unfold unsigned.
  pose proof (digits_stops_at c rest Hc s 0) as Hd.
  destruct s; simpl in *; exact Hd.
Qed.

Lemma ParseInt_unsigned_none (s : string) :
  unsigned s = None ->
  (forall rest, s = String "-" rest -> unsigned rest = None) ->
  (forall rest, s = String "+" rest -> unsigned rest = None) ->
  ParseInt s = None.
Proof.
  intros Hu Hminus Hplus. unfold ParseInt.
  destruct s as [|a s']; [reflexivity |].
  destruct a as [[] [] [] [] [] [] [] []];
    try (rewrite Hu; reflexivity);
    first [rewrite (Hminus s' eq_refl) | rewrite (Hplus s' eq_refl)];
    reflexivity.
Qed.

Lemma Atoi_trailing_newline (s : string) : daemon.Atoi (s ++ nl) = None.
Proof.
  unfold daemon.Atoi, nl. apply ParseInt_unsigned_none.
  - now apply unsigned_stops_at.
  - intros rest Heq. destruct s as [|a s']; simpl in Heq; [discriminate |].
    injection Heq as _ <-. now apply unsigned_stops_at.
  - intros rest Heq. destruct s as [|a s']; simpl in Heq; [discriminate |].
    injection Heq as _ <-. now apply unsigned_stops_at.
Qed.

Section PidFile.

Import daemon.

Context {W E : Type} {E_error : error E} {os : OS W E}.

Variable pidFilePath : string.

Implicit Types (p : Proc W).

(** X16.  The PID file round trip.  On a file system where a successful
    write is read back, a pid of the int range written by writePidFile is
    the pid readPidFile returns. *)
Theorem pid_file_round_trip (pid : Z) p p' :
  (forall name data w w',
      WriteFile name data w = (None, w') -> fst (ReadFile name w') = Ok data) ->
  MinInt64 <= pid <= MaxInt64 ->
  writePidFile pidFilePath pid p = (None, p') ->
  fst (readPidFile pidFilePath p') = Ok pid.
Proof.
  intros Hfs Hr Hw. unfold writePidFile, onSys in Hw.
  destruct (WriteFile pidFilePath (Itoa pid) (sys p)) as [err w'] eqn:Hwrite.
  injection Hw as -> <-.
  specialize (Hfs _ _ _ _ Hwrite).
  unfold readPidFile, onSys. simpl.
  destruct (ReadFile pidFilePath w') as [read w'']. simpl in Hfs. subst read.
  unfold Atoi. now rewrite ParseInt_Itoa.
Qed.

(** X17.  A PID file whose content ends with a newline is not read as a
    pid: readPidFile fails on it, whatever precedes the newline, so status
    and stop report that the daemon is not running, return no error and
    make no other call to the operating system. *)
Theorem pid_file_with_newline_is_not_a_pid (data : string) p w :
  ReadFile pidFilePath (sys p) = (Ok (data ++ nl), w) ->
  let p1 := mkProc w (stdout p) (stderr p) in
  readPidFile pidFilePath p = (Err (NotANumber (data ++ nl)), p1)
  /\ daemonStatus pidFilePath p
     = (None, Println "🔴 MemoryPilot daemon is not running" p1)
  /\ daemonStop pidFilePath p
     = (None, Println "❌ MemoryPilot daemon is not running (no PID file)" p1).
Proof.
  intros Hread p1.
  assert (Hr : readPidFile pidFilePath p = (Err (NotANumber (data ++ nl)), p1)).
  { unfold readPidFile, onSys. rewrite Hread.
    now rewrite Atoi_trailing_newline. }
  split; [exact Hr |].
  unfold daemonStatus, daemonStop. rewrite Hr. split; reflexivity.
Qed.

End PidFile.

(** ** The calls the commands make to the operating system *)

Section DaemonCalls.

Import daemon.

Context {W E : Type} {E_error : error E} (os : OS W E).

Variable path : string.

Implicit Types (p : TProc W).

(** The commands are run on every outcome of the calls they make: each
    call on a machine state is replaced by its result, the innermost
    first. *)
Ltac os_simpl :=
  cbn [fst snd negb sys stdout stderr Println Eprint fold_left].

Ltac run_os :=
  os_simpl;
  repeat match goal with
    | |- context [ReadFile path ?w] =>
        let r := fresh "read" in
        let w1 := fresh "w" in
        is_var w; destruct (ReadFile path w) as [[r|r] w1]; os_simpl
    | |- context [Atoi ?d] =>
        let pid := fresh "pid" in
        destruct (Atoi d) as [pid|]; os_simpl
    | |- context [FindProcess ?pid ?w] =>
        let e := fresh "e" in
        let w1 := fresh "w" in
        is_var w; destruct (FindProcess pid w) as [[e|] w1]; os_simpl
    | |- context [SendSignal ?pid ?sig ?w] =>
        let e := fresh "e" in
        let w1 := fresh "w" in
        is_var w; destruct (SendSignal pid sig w) as [[e|] w1]; os_simpl
    | |- context [Remove path ?w] =>
        let e := fresh "e" in
        let w1 := fresh "w" in
        is_var w; destruct (Remove path w) as [e w1]; os_simpl
    | |- context [Remove path (AgentStop (AwaitSignal ?w))] =>
        let e := fresh "e" in
        let w1 := fresh "w" in
        is_var w;
        destruct (Remove path (AgentStop (AwaitSignal w))) as [e w1]; os_simpl
    | |- context [Executable ?w] =>
        let e := fresh "exe" in
        let w1 := fresh "w" in
        is_var w; destruct (Executable w) as [[e|e] w1]; os_simpl
    | |- context [StartCommand ?exe ?args ?w] =>
        let e := fresh "child" in
        let w1 := fresh "w" in
        is_var w; destruct (StartCommand exe args w) as [[e|e] w1]; os_simpl
    | |- context [Getpid ?w] =>
        let e := fresh "self" in
        let w1 := fresh "w" in
        is_var w; destruct (Getpid w) as [e w1]; os_simpl
    | |- context [WriteFile path ?data ?w] =>
        let e := fresh "e" in
        let w1 := fresh "w" in
        is_var w; destruct (WriteFile path data w) as [[e|] w1]; os_simpl
    | |- context [AgentNew ?w] =>
        let e := fresh "e" in
        let w1 := fresh "w" in
        is_var w; destruct (AgentNew w) as [[e|] w1]; os_simpl
    | |- context [AgentStart ?w] =>
        let e := fresh "e" in
        let w1 := fresh "w" in
        is_var w; destruct (AgentStart w) as [[e|] w1]; os_simpl
    end.

Ltac unfold_os p :=
  destruct p as [[? ?] ? ?];
  unfold daemonStatus, daemonStop, daemonStart, alreadyRunning, startBackground,
    startForeground, runAgent, writePidFile, readPidFile, isProcessRunning,
    removePidFile, onSys, afterGuard, probeOf, pidInFile, afterRead,
    processAnswers, afterProbe, eraseProc, calls;
  cbn [traced ReadFile WriteFile Remove FindProcess SendSignal Executable Getpid
       StartCommand AgentNew AgentStart AgentStop AwaitSignal
       sys stdout stderr];
  unfold logged; cbn [fst snd].

Ltac calls_eq := rewrite <- ?app_assoc; reflexivity.

Ltac only_remove :=
  let c := fresh "c" in
  let Hin := fresh "Hin" in
  let Hch := fresh "Hch" in
  intros c Hin Hch; cbn [In app probeCalls] in Hin;
  repeat (destruct Hin as [<- | Hin]; [first [discriminate | reflexivity] |]);
  contradiction.

Ltac shape :=
  unfold statusCalls, stopCalls, agentCalls, probeCalls; cbn [app];
  first [ left; reflexivity
        | right; eexists;
          first [ left; reflexivity
                | right; left; reflexivity
                | right; right; left; reflexivity
                | right; right; right; reflexivity
                | right; right; reflexivity
                | right; reflexivity ]
        | right; left; reflexivity
        | right; right; reflexivity ].

Ltac out_eq := unfold printed; cbn [map]; rewrite <- ?app_assoc; reflexivity.

(** X18.  The status command, over any operating system.  It returns no
    error.  It reads the PID file; when the file gives no pid (it cannot
    be read, or its content is not a number) that is its only call and it
    reports that the daemon is not running.  Otherwise it probes that pid
    with FindProcess and, if the process is found, the signal 0: when the
    process answers, it makes no other call and prints the report for
    that pid; when FindProcess fails or the signal is not delivered, it
    reports a stale PID file and removes the file.  It never sends SIGTERM
    or SIGINT and never writes a file.  The log apart, it behaves over the
    logging machine as over the machine itself. *)
Theorem status_only_probes p :
  let r := daemonStatus (os := traced os) path p in
  let w := fst (sys p) in
  fst r = None
  /\ fst r = fst (daemonStatus (os := os) path (eraseProc p))
  /\ eraseProc (snd r) = snd (daemonStatus (os := os) path (eraseProc p))
  /\ exists cs,
       calls (snd r) = (calls p ++ cs)%list
       /\ statusCalls path cs
       /\ existsb isKill cs = false
       /\ (forall c, In c cs -> changesFiles c = true -> c = CallRemove path)
       /\ match pidInFile path w with
          | None =>
              cs = [CallReadFile path]
              /\ stdout (snd r)
                 = (stdout p ++ printed ["🔴 MemoryPilot daemon is not running"])%list
          | Some pid =>
              if processAnswers pid (afterRead path w)
              then cs = probeCalls path pid
                   /\ stdout (snd r)
                      = (stdout p ++ printed (statusReport pid))%list
              else cs = (probeOf path pid (afterRead path w) ++ [CallRemove path])%list
                   /\ stdout (snd r)
                      = (stdout p
                         ++ printed
                              ["🔴 MemoryPilot daemon is not running (stale PID file)"])%list
          end.
Proof.
  cbv zeta. unfold_os p. unfold statusReport. run_os.
  all: split; [reflexivity |]; split; [reflexivity |]; split; [reflexivity |].
  all: eexists; split; [calls_eq |].
  all: split; [shape |]; split; [reflexivity |]; split; [only_remove |].
  all: split; [reflexivity | out_eq].
Qed.

(** X19.  The stop command, over any operating system.  When the PID
    file gives no pid it only reads the file and returns no error.  When
    the pid of the file does not answer the probe (FindProcess fails, or
    the signal 0 is not delivered), it removes the PID file, sends no
    other signal and returns no error.  When the pid answers, it looks
    the process up again and sends it SIGTERM, once: a failure of that
    FindProcess is returned as failed to find process, with no signal
    sent; a failure of the signal is returned as failed to stop daemon;
    otherwise it returns no error.  It never writes a file, and removes
    the PID file only in the stale case.  The log apart, it behaves over
    the logging machine as over the machine itself. *)
Theorem stop_signals_only_a_probed_pid p :
  let r := daemonStop (os := traced os) path p in
  let w := fst (sys p) in
  fst r = fst (daemonStop (os := os) path (eraseProc p))
  /\ eraseProc (snd r) = snd (daemonStop (os := os) path (eraseProc p))
  /\ exists cs,
       calls (snd r) = (calls p ++ cs)%list
       /\ stopCalls path cs
       /\ (forall c, In c cs -> changesFiles c = true -> c = CallRemove path)
       /\ match pidInFile path w with
          | None => cs = [CallReadFile path] /\ fst r = None
          | Some pid =>
              if processAnswers pid (afterRead path w)
              then
                let found := FindProcess pid (afterProbe pid (afterRead path w)) in
                match fst found with
                | Some err =>
                    cs = (probeCalls path pid ++ [CallFindProcess pid])%list
                    /\ fst r = Some ("failed to find process: " ++ Error err)
                | None =>
                    cs = (probeCalls path pid
                          ++ [CallFindProcess pid; CallSendSignal pid SIGTERM])%list
                    /\ fst r =
                       match fst (SendSignal pid SIGTERM (snd found)) with
                       | Some err => Some ("failed to stop daemon: " ++ Error err)
                       | None => None
                       end
                end
              else cs = (probeOf path pid (afterRead path w) ++ [CallRemove path])%list
                   /\ fst r = None
          end.
Proof.
  cbv zeta. unfold_os p. run_os.
  all: split; [reflexivity |]; split; [reflexivity |].
  all: eexists; split; [calls_eq |].
  all: split; [shape |]; split; [only_remove |].
  all: split; reflexivity.
Qed.

(** X20.  A foreground start cleans up after itself on every exit.  Over
    any operating system it asks for its own pid, writes that pid to the
    PID file as a decimal number, runs the agent, and its last call,
    whatever it returns, is the removal of the PID file.  When the agent
    cannot be created it returns failed to create agent and the agent is
    not started; when the agent cannot be started it returns failed to
    start agent; otherwise it waits for a signal, stops the agent and
    returns no error.  A failed write of the PID file is only reported as
    a warning on the standard error, and changes nothing else. *)
Theorem foreground_start_always_removes_the_pid_file p :
  let r := startForeground (os := traced os) path p in
  let w := fst (sys p) in
  let pid := fst (Getpid w) in
  let written := WriteFile path (Itoa pid) (snd (Getpid w)) in
  let created := AgentNew (snd written) in
  let started := AgentStart (snd created) in
  let warning :=
    match fst written with
    | Some err => ["Warning: Failed to write PID file: " ++ Error err ++ nl]
    | None => []
    end in
  fst r = fst (startForeground (os := os) path (eraseProc p))
  /\ eraseProc (snd r) = snd (startForeground (os := os) path (eraseProc p))
  /\ exists agent,
       calls (snd r)
       = (calls p ++ [CallGetpid; CallWriteFile path (Itoa pid)]
                  ++ agent ++ [CallRemove path])%list
       /\ match fst created with
          | Some err =>
              agent = [CallAgentNew]
              /\ fst r = Some ("failed to create agent: " ++ Error err)
          | None =>
              match fst started with
              | Some err =>
                  agent = [CallAgentNew; CallAgentStart]
                  /\ fst r = Some ("failed to start agent: " ++ Error err)
              | None =>
                  agent = [CallAgentNew; CallAgentStart; CallAwaitSignal;
                           CallAgentStop]
                  /\ fst r = None
              end
          end
       /\ stderr (snd r) = (stderr p ++ warning)%list.
Proof.
  cbv zeta. unfold_os p. run_os.
  all: split; [reflexivity |]; split; [reflexivity |].
  all: eexists; refine (conj _ (conj _ _)); cycle 1;
    [ split; reflexivity
    | rewrite ?app_nil_r; reflexivity
    | cbn [app]; calls_eq ].
Qed.

Ltac foreground_rest agent :=
  solve [ eexists; refine (conj _ (conj _ _)); cycle 2;
          [ exists agent; split; [reflexivity | shape]
          | cbn [app]; calls_eq
          | reflexivity ] ].

(** X21.  The start command, over any operating system.  It never sends
    SIGTERM or SIGINT.  It reads the PID file and, when the file gives a
    pid, probes it.  When that pid answers it stops there: it says that
    the daemon is already running with that pid, returns no error, and
    nothing is written, removed or started.  Otherwise, a PID file whose
    pid does not answer having been removed, a background start asks for
    the path of the executable and starts it with the arguments daemon
    start, returning the failure of either step as its error, and writes
    no PID file itself; a foreground start is the sequence of X20, with
    the pid the machine gives at that point.  The log apart, it behaves
    over the logging machine as over the machine itself. *)
Theorem start_calls (background : bool) p :
  let r := daemonStart (os := traced os) path background p in
  let w := fst (sys p) in
  let w1 := afterRead path w in
  let wg := afterGuard path w in
  let running :=
    match pidInFile path w with
    | Some pid => processAnswers pid w1
    | None => false
    end in
  let guard :=
    match pidInFile path w with
    | Some pid =>
        (probeOf path pid w1
         ++ (if processAnswers pid w1 then [] else [CallRemove path]))%list
    | None => [CallReadFile path]
    end in
  let notice :=
    match pidInFile path w with
    | Some pid => ["❌ MemoryPilot daemon already running (PID " ++ Itoa pid ++ ")"]
    | None => []
    end in
  fst r = fst (daemonStart (os := os) path background (eraseProc p))
  /\ eraseProc (snd r)
     = snd (daemonStart (os := os) path background (eraseProc p))
  /\ exists rest,
       calls (snd r) = (calls p ++ guard ++ rest)%list
       /\ existsb isKill (guard ++ rest) = false
       /\ if running then
            rest = [] /\ fst r = None
            /\ stdout (snd r) = (stdout p ++ printed notice)%list
          else if background then
            match fst (Executable wg) with
            | Err err =>
                rest = [CallExecutable]
                /\ fst r = Some ("failed to get executable path: " ++ Error err)
            | Ok exe =>
                rest = [CallExecutable; CallStartCommand exe ["daemon"; "start"]]
                /\ fst r =
                   match fst (StartCommand exe ["daemon"; "start"]
                                           (snd (Executable wg))) with
                   | Err err =>
                       Some ("failed to start background process: " ++ Error err)
                   | Ok _ => None
                   end
            end
          else
            exists agent,
              rest = ([CallGetpid; CallWriteFile path (Itoa (fst (Getpid wg)))]
                      ++ agent ++ [CallRemove path])%list
              /\ agentCalls agent.
Proof.
  cbv zeta. destruct background.
  - unfold_os p; run_os.
    all: split; [reflexivity |]; split; [reflexivity |].
    all: eexists; refine (conj _ (conj _ _)); cycle 2;
      [ first [ split; [reflexivity | split; [reflexivity | out_eq]]
              | split; reflexivity ]
      | cbn [app]; calls_eq
      | reflexivity ].
  - unfold_os p; run_os.
    all: split; [reflexivity |]; split; [reflexivity |].
    all: first
      [ solve [ exists []; split; [cbn [app]; calls_eq |];
                split; [reflexivity |];
                split; [reflexivity | split; [reflexivity | out_eq]] ]
      | foreground_rest [CallAgentNew]
      | foreground_rest [CallAgentNew; CallAgentStart]
      | foreground_rest [CallAgentNew; CallAgentStart; CallAwaitSignal;
                         CallAgentStop] ].
Qed.

End DaemonCalls.

(* ================================================================== *)
(** * The further properties on concrete runs *)

Module MoreRuns.
Import Probe ProbeRuns.

#[local] Existing Instance strconv.


(** X5 on an initialize request. *)
Lemma only_tool_calls_touch_the_store_witness :
  store (handleRequest (db := api) (rt := runtime) initializeRequest s0) = store s0
  /\ world (handleRequest (db := api) (rt := runtime) initializeRequest s0)
     = world s0.
Proof.
  apply (only_tool_calls_touch_the_store (db := api) (rt := runtime)
           initializeRequest s0).
  discriminate.
Defined.


(** X7 on a malformed line, a failed read and a line that is never read. *)
Lemma read_error_ends_the_run_witness :
  Run (db := api) (rt := runtime)
      ([ReadLine badLine] ++ ReadError "input/output error"
         :: [ReadLine initializeLine]) s0
  = (Some "read error: input/output error",
     snd (Run (db := api) (rt := runtime) [ReadLine badLine] s0)).
Proof.
  apply (read_error_ends_the_run (db := api) (rt := runtime)).
  intros r [<- | []]. now exists badLine.
Defined.

(** X9 on a remember request while the gateway answers with a vector. *)
Lemma remember_reports_success_once_saved_witness :
  let args := Some (rememberArgs (JString "Use Redis for caching")
                                 (JString "decision")) in
  let s := mkServer [] (mkWorld [EmbedVector [1%float]] 1000 ["01J0A"]) [] in
  let s' := handleRemember (db := api) (rt := runtime) initializeRequest args s in
  List.length (store s') = 2%nat /\ List.length (writer s') = 1%nat.
Proof.
  intros args s s'.
  pose proof (remember_reports_success_once_saved
                (db := api) (rt := runtime) initializeRequest args s
                (snd (fst (rememberSave (db := api) (rt := runtime)
                                        (rememberParams args) s)))
                (snd (rememberSave (db := api) (rt := runtime)
                                   (rememberParams args) s))
                (EmbedVector [1%float])
                (mkWorld [] 1001 [])
                eq_refl eq_refl) as H.
  unfold s'. rewrite H. split; reflexivity.
Defined.

(** X10 on a remember request the store of the specification refuses. *)
Lemma failed_write_skips_embedding_witness :
  let args := Some (rememberArgs (JString "") (JString "decision")) in
  let s' := handleRemember (db := SpecStore.api bySubstring) (rt := runtime)
                           initializeRequest args spec0 in
  world s' = mkWorld [] 1001 [] /\ store s' = store spec0.
Proof.
  intros args s'.
  pose proof (failed_write_skips_embedding
                (db := SpecStore.api bySubstring) (rt := runtime)
                initializeRequest args spec0 SpecStore.ValidationError
                (snd (fst (rememberSave (db := SpecStore.api bySubstring)
                                        (rt := runtime)
                                        (rememberParams args) spec0)))
                (snd (rememberSave (db := SpecStore.api bySubstring)
                                   (rt := runtime)
                                   (rememberParams args) spec0))
                eq_refl) as (_ & Hw & Hs).
  split; [exact Hw | exact Hs].
Defined.

(** X16 on the small machine: the pid 4242 written and read back. *)
Lemma pid_file_round_trip_witness :
  let p := daemon.Machine.boot [] [] in
  let p' := snd (daemon.writePidFile (os := daemon.Machine.os)
                                     daemon.Machine.pidPath 4242 p) in
  fst (daemon.readPidFile (os := daemon.Machine.os) daemon.Machine.pidPath p')
  = Ok 4242.
Proof.
  intros p p'.
  apply (pid_file_round_trip (os := daemon.Machine.os) daemon.Machine.pidPath
           4242 p p').
  - intros name data w w' Hw. injection Hw as <-. simpl.
    now rewrite String.eqb_refl.
  - vm_compute. split; discriminate.
  - reflexivity.
Defined.

(** X17 on the small machine: a PID file written with a newline, while
    the daemon 4242 is alive. *)
Lemma pid_file_with_newline_is_not_a_pid_witness :
  let p := daemon.Machine.boot [(daemon.Machine.pidPath, "4242" ++ nl)] [4242] in
  daemon.daemonStatus (os := daemon.Machine.os) daemon.Machine.pidPath p
  = (None, daemon.Println "🔴 MemoryPilot daemon is not running" p).
Proof.
  intros p.
  pose proof (pid_file_with_newline_is_not_a_pid
                (os := daemon.Machine.os) daemon.Machine.pidPath "4242" p
                (daemon.sys p) eq_refl) as (_ & H & _).
  exact H.
Defined.

(** X18 on the small machine: the PID file names the pid 4242 and no such
    process is alive, so that the probe is not answered and the file is
    removed. *)
Lemma status_only_probes_witness :
  let p := daemon.mkProc
             (daemon.Machine.mk [(daemon.Machine.pidPath, "4242")] [] 1, [])
             [] [] in
  daemon.calls (snd (daemon.daemonStatus (os := daemon.traced daemon.Machine.os)
                                         daemon.Machine.pidPath p))
  = [daemon.CallReadFile daemon.Machine.pidPath; daemon.CallFindProcess 4242;
     daemon.CallSendSignal 4242 daemon.Signal0;
     daemon.CallRemove daemon.Machine.pidPath].
Proof.
  intros p.
  destruct (status_only_probes daemon.Machine.os daemon.Machine.pidPath p)
    as (_ & _ & _ & cs & Hcalls & _ & _ & _ & Hcase).
  rewrite Hcalls.
  change (daemon.pidInFile daemon.Machine.pidPath (fst (daemon.sys p)))
    with (Some 4242) in Hcase.
  change (daemon.processAnswers 4242
            (daemon.afterRead daemon.Machine.pidPath (fst (daemon.sys p))))
    with false in Hcase.
  destruct Hcase as [-> _]. reflexivity.
Defined.

(** X19 on the small machine: the daemon 4242 is alive, it is probed,
    looked up again and sent SIGTERM, and the command returns no error. *)
Lemma stop_signals_only_a_probed_pid_witness :
  let p := daemon.mkProc
             (daemon.Machine.mk [(daemon.Machine.pidPath, "4242")] [4242] 1, [])
             [] [] in
  let r := daemon.daemonStop (os := daemon.traced daemon.Machine.os)
                             daemon.Machine.pidPath p in
  fst r = None
  /\ daemon.calls (snd r)
     = [daemon.CallReadFile daemon.Machine.pidPath; daemon.CallFindProcess 4242;
        daemon.CallSendSignal 4242 daemon.Signal0; daemon.CallFindProcess 4242;
        daemon.CallSendSignal 4242 daemon.SIGTERM].
Proof.
  intros p r.
  destruct (stop_signals_only_a_probed_pid daemon.Machine.os
              daemon.Machine.pidPath p)
    as (_ & _ & cs & Hcalls & _ & _ & Hcase).
  fold r in Hcalls, Hcase.
  change (daemon.pidInFile daemon.Machine.pidPath (fst (daemon.sys p)))
    with (Some 4242) in Hcase.
  change (daemon.processAnswers 4242
            (daemon.afterRead daemon.Machine.pidPath (fst (daemon.sys p))))
    with true in Hcase.
  cbv zeta in Hcase.
  change (fst (daemon.FindProcess (OS := daemon.Machine.os) 4242
                 (daemon.afterProbe 4242
                    (daemon.afterRead daemon.Machine.pidPath
                                      (fst (daemon.sys p))))))
    with (@None string) in Hcase.
  destruct Hcase as [-> Hret].
  split; [exact Hret | rewrite Hcalls; reflexivity].
Defined.

End MoreRuns.
